(** * Udon order tracker: extraction adapter, order builder, store and aggregates

    A shallow embedding of [services/geminiService.ts], [types.ts] and the
    state logic of the [App] component ([App.tsx]), followed by the
    properties of the specification that concern them.

    Conventions of the embedding.
    - A JavaScript string is a [string]; the sources only cut strings at
      ASCII characters (a space, the letter T) and compare prefixes, which
      reads the same on bytes as on UTF-16 code units.
    - An asynchronous function is the function from what its awaited calls
      produced to what it produces: [Returned v] for a fulfilled promise,
      [Raised e] for a rejected one.
    - React state is a record; each [setX] is a function on it.  A handler
      that awaits is cut at the await into the state changes made before
      and after it.
    - Counters are JavaScript numbers that only ever hold small naturals:
      they are [nat]; the percentage is a binary64 [float].
    - The object literal [{}] used as a dictionary by [chartData] is the
      list of its own properties in creation order, looked up as a plain
      object is: through its own properties first, then through the members
      it inherits from [Object.prototype]. *)

From Stdlib Require Import List String Ascii Bool Arith NArith ZArith Lia.
From Stdlib Require Import Sorted Permutation Floats Uint63.
Import ListNotations.
Open Scope string_scope.

Set Implicit Arguments.
Set Warnings "-register-all".

(* ================================================================== *)
(** * Part I: definitions *)
(* ================================================================== *)

(** ** JavaScript runtime notions the sources rely on *)

Inductive JsError : Type :=
| ServiceError (message : string) (* generateContent rejected: transport, timeout, throttling *)
| SyntaxError                     (* thrown by JSON.parse *)
| TypeError.

Inductive Outcome (A : Type) : Type :=
| Returned (a : A)
| Raised (e : JsError).

Arguments Returned {A} a.
Arguments Raised {A} e.

Definition bind {A B : Type} (c : Outcome A) (k : A -> Outcome B) : Outcome B :=
  match c with
  | Returned a => k a
  | Raised e => Raised e
  end.

Notation "x <- c ;; k" := (bind c (fun x => k))
  (at level 61, c at next level, right associativity).

(** [try { body } catch (error) { handler }] *)
Definition try_catch {A : Type} (body : Outcome A) (handler : JsError -> Outcome A)
  : Outcome A :=
  match body with
  | Returned a => Returned a
  | Raised e => handler e
  end.

(** [Promise.all]: fulfilled with the values in the order of the array when
    every promise is fulfilled, rejected as soon as one is.  The reason kept
    here is that of the first rejected promise of the array; the callers
    only log it. *)
Fixpoint Promise_all {A : Type} (ps : list (Outcome A)) : Outcome (list A) :=
  match ps with
  | [] => Returned []
  | p :: ps' =>
      match p, Promise_all ps' with
      | Raised e, _ => Raised e
      | Returned _, Raised e => Raised e
      | Returned a, Returned rest => Returned (a :: rest)
      end
  end.

(** [s.split(sep)[0]] for a one-character separator: the part of [s] before
    the first [sep], all of [s] when there is none. *)
Fixpoint split_head (sep : ascii) (s : string) : string :=
  match s with
  | EmptyString => EmptyString
  | String c s' => if Ascii.eqb c sep then EmptyString else String c (split_head sep s')
  end.

(** [s.startsWith(p)] *)
Definition startsWith (s p : string) : bool := String.prefix p s.

(** [s.slice(0, n)] *)
Definition slice0 (n : nat) (s : string) : string := String.substring 0 n s.

(** A reading of the clock, [new Date()], through the two renderings the
    sources use. *)
Record Date : Type := mkDate {
  toISOString : string;     (* YYYY-MM-DDTHH:mm:ss.sssZ *)
  toLocaleString : string
}.

(** Array.prototype.sort with a comparator that answers "a goes before or
    with b": a stable insertion sort, as the language requires of [sort]
    for a consistent comparator. *)
Section Sort.
Variable A : Type.
Variable before : A -> A -> bool.

Fixpoint insert_sorted (x : A) (l : list A) : list A :=
  match l with
  | [] => [x]
  | y :: l' => if before x y then x :: y :: l' else y :: insert_sorted x l'
  end.

Fixpoint Array_sort (l : list A) : list A :=
  match l with
  | [] => []
  | x :: l' => insert_sorted x (Array_sort l')
  end.
End Sort.

(** [a.slice(-n)]: the last [n] elements, all of [a] when it has fewer. *)
Definition slice_last {A : Type} (n : nat) (a : list A) : list A :=
  skipn (List.length a - n) a.

(** ** types.ts *)

Record OrderItem : Type := mkItem {
  name : string;
  isUdon : bool
}.

Record CafeteriaOrder : Type := mkOrder {
  id : string;
  date : string;
  sender : string;
  subject : string;
  items : list OrderItem;
  fullText : string;
  hasUdon : bool
}.

Record Statistics : Type := mkStatistics {
  totalOrders : nat;
  udonCount : nat;
  udonPercentage : float;
  thisMonthCount : nat
}.

(** ** services/geminiService.ts *)

(** What [JSON.parse] can return. *)
Inductive JSON : Type :=
| JNull
| JBool (b : bool)
| JNumber (x : float)
| JString (s : string)
| JArray (elements : list JSON)
| JObject (properties : list (string * JSON)).

(** [response.text], seen through what [JSON.parse] makes of it. *)
Inductive ResponseText : Type :=
| NoText                (* undefined or the empty string: falsy *)
| Malformed             (* a text JSON.parse rejects *)
| JSONText (v : JSON).  (* a text JSON.parse turns into v *)

(** How the call [ai.models.generateContent(...)] settles. *)
Inductive GeminiCall : Type :=
| Rejected (e : JsError)
| Fulfilled (text : ResponseText).

(** [response.text || "{}"] *)
Definition text_or_braces (t : ResponseText) : ResponseText :=
  match t with
  | NoText => JSONText (JObject [])
  | _ => t
  end.

Definition JSON_parse (t : ResponseText) : Outcome JSON :=
  match t with
  | JSONText v => Returned v
  | Malformed | NoText => Raised SyntaxError
  end.

(** [new Date().toISOString().split('T')[0]] *)
Definition isoDay (now : Date) : string := split_head "T" (toISOString now).

(** [parseEmailContent]: [call] is how the request settled and [now] the
    clock at the time of the [catch].  The [await] stands before the [try],
    so a rejection leaves the function; only [JSON.parse] is guarded, and
    [data] is returned as parsed. *)
Definition parseEmailContent (now : Date) (call : GeminiCall) : Outcome JSON :=
  response <- match call with
              | Rejected e => Raised e
              | Fulfilled text => Returned text
              end ;;
  try_catch
    (data <- JSON_parse (text_or_braces response) ;; Returned data)
    (fun _error =>
       Returned (JObject [("items", JArray []); ("date", JString (isoDay now))])).

(** The declared result type [{ items: OrderItem[], date: string }]. *)
Record ParsedEmail : Type := mkParsed {
  p_items : list OrderItem;
  p_date : string
}.

Fixpoint property (k : string) (ps : list (string * JSON)) : option JSON :=
  match ps with
  | [] => None
  | (k', v) :: ps' => if String.eqb k k' then Some v else property k ps'
  end.

Definition asOrderItem (v : JSON) : option OrderItem :=
  match v with
  | JObject ps =>
      match property "name" ps, property "isUdon" ps with
      | Some (JString n), Some (JBool b) => Some (mkItem n b)
      | _, _ => None
      end
  | _ => None
  end.

Fixpoint asOrderItems (vs : list JSON) : option (list OrderItem) :=
  match vs with
  | [] => Some []
  | v :: vs' =>
      match asOrderItem v, asOrderItems vs' with
      | Some i, Some is' => Some (i :: is')
      | _, _ => None
      end
  end.

(** A JSON value read at the declared result type; [None] when it does not
    have that shape (the response schema of the request). *)
Definition asParsedEmail (v : JSON) : option ParsedEmail :=
  match v with
  | JObject ps =>
      match property "date" ps, property "items" ps with
      | Some (JString d), Some (JArray vs) =>
          match asOrderItems vs with
          | Some its => Some (mkParsed its d)
          | None => None
          end
      | _, _ => None
      end
  | _ => None
  end.

(** *** The untyped reading of a reply

    [processEmail] below is embedded at the declared type.  What its first
    statement, [parsed.items.some(item => item.isUdon)], does on an
    arbitrary value of [JSON.parse] is given here, to relate the two. *)

(** Truthiness. *)
Definition truthy (v : JSON) : bool :=
  match v with
  | JNull => false
  | JBool b => b
  | JNumber x => negb (PrimFloat.eqb x 0 || PrimFloat.is_nan x)
  | JString s => negb (String.eqb s "")
  | JArray _ | JObject _ => true
  end.

(** [v.k] for one of the keys the sources read ([items], [date], [isUdon]),
    none of which is a member of a prototype: [None] is [undefined], and
    reading a member of [null] throws. *)
Definition member (v : JSON) (k : string) : Outcome (option JSON) :=
  match v with
  | JNull => Raised TypeError
  | JObject ps => Returned (property k ps)
  | _ => Returned None
  end.

(** [l.some(item => item.isUdon)] on an array: stops at the first truthy
    answer. *)
Fixpoint some_item_isUdon (l : list JSON) : Outcome bool :=
  match l with
  | [] => Returned false
  | item :: rest =>
      flag <- member item "isUdon" ;;
      match flag with
      | Some v => if truthy v then Returned true else some_item_isUdon rest
      | None => some_item_isUdon rest
      end
  end.

(** [parsed.items.some(item => item.isUdon)]: only an array has [some]. *)
Definition parsed_items_some (parsed : JSON) : Outcome bool :=
  its <- member parsed "items" ;;
  match its with
  | Some (JArray l) => some_item_isUdon l
  | _ => Raised TypeError
  end.

(** The empty extraction result [{date: "", items: []}]. *)
Definition emptyResult : ParsedEmail := mkParsed [] "".

(** ** Objects used as dictionaries *)

Section JsObject.
Variable V : Type.

(** Own properties, in the order they were created. *)
Definition JsObject : Type := list (string * V).

(** [o[k]] *)
Fixpoint obj_get (o : JsObject) (k : string) : option V :=
  match o with
  | [] => None
  | (k', v) :: o' => if String.eqb k k' then Some v else obj_get o' k
  end.

(** In-place change of the value held at [k]: [o[k].field += 1]. *)
Fixpoint obj_update (k : string) (f : V -> V) (o : JsObject) : JsObject :=
  match o with
  | [] => []
  | (k', v) :: o' =>
      if String.eqb k k' then (k', f v) :: o' else (k', v) :: obj_update k f o'
  end.

(** [o[k] = v]: a new property goes last, an existing one keeps its place. *)
Definition obj_set (k : string) (v : V) (o : JsObject) : JsObject :=
  match obj_get o k with
  | Some _ => obj_update k (fun _ => v) o
  | None => (o ++ [(k, v)])%list
  end.
End JsObject.

(** The members every object made by [{}] inherits from [Object.prototype]
    in a browser (the language's own and those of its Annex B).  Each is a
    function, except [__proto__], whose reading gives [Object.prototype]
    itself: all of them are truthy. *)
Definition Object_prototype_members : list string :=
  ["constructor"; "hasOwnProperty"; "isPrototypeOf"; "propertyIsEnumerable";
   "toLocaleString"; "toString"; "valueOf"; "__proto__";
   "__defineGetter__"; "__defineSetter__"; "__lookupGetter__"; "__lookupSetter__"].

Definition inherited (k : string) : bool :=
  existsb (String.eqb k) Object_prototype_members.

(** What [o[k]] finds on a plain object. *)
Inductive Member (V : Type) : Type :=
| Own (v : V)      (* the value of the own property k *)
| Inherited        (* no own property k: the member k of Object.prototype *)
| Undefined.       (* neither: undefined *)

Arguments Own {V} v.
Arguments Inherited {V}.
Arguments Undefined {V}.

Definition plain_get {V : Type} (o : JsObject V) (k : string) : Member V :=
  match obj_get o k with
  | Some v => Own v
  | None => if inherited k then Inherited else Undefined
  end.

Definition digit (c : ascii) : option N :=
  let n := N_of_ascii c in
  if (48 <=? n)%N && (n <=? 57)%N then Some (n - 48)%N else None.

Fixpoint decimal (s : string) (acc : N) : option N :=
  match s with
  | EmptyString => Some acc
  | String c s' =>
      match digit c with
      | Some d => decimal s' (10 * acc + d)%N
      | None => None
      end
  end.

(** A property key that is an array index: the canonical decimal writing of
    an integer between 0 and 2^32 - 2. *)
Definition arrayIndex (k : string) : option N :=
  match k with
  | EmptyString => None
  | String c rest =>
      if Ascii.eqb c "0" then
        match rest with EmptyString => Some 0%N | _ => None end
      else
        match decimal k 0 with
        | Some n => if (n <=? 4294967294)%N then Some n else None
        | None => None
        end
  end.

Definition indexed {V : Type} (o : JsObject V) : list (N * V) :=
  flat_map (fun kv => match arrayIndex (fst kv) with
                      | Some n => [(n, snd kv)]
                      | None => []
                      end) o.

Definition named {V : Type} (o : JsObject V) : list (string * V) :=
  filter (fun kv => match arrayIndex (fst kv) with
                    | Some _ => false
                    | None => true
                    end) o.

(** [Object.values(o)]: array-index keys first, in ascending numeric order,
    then the other keys in creation order. *)
Definition Object_values {V : Type} (o : JsObject V) : list V :=
  (map snd (Array_sort (fun a b => (fst a <=? fst b)%N) (indexed o))
   ++ map snd (named o))%list.

(** ** App.tsx *)

Module Email.
(** [{ id: string, subject: string, body: string, date: string }] *)
Record t : Type := mk {
  id : string;
  subject : string;
  date : string;
  body : string
}.
End Email.

Definition nl : string := String "010" EmptyString.

(** [new Date().toISOString().slice(0, 7)], evaluated once, when the module
    is loaded: [loadTime] is the clock at that moment. *)
Definition CURRENT_MONTH (loadTime : Date) : string :=
  slice0 7 (toISOString loadTime).

Definition MOCK_EMAILS (loadTime : Date) : list Email.t :=
  [ Email.mk "1" "【創価高等学校食堂】ご注文内容の確認"
      (CURRENT_MONTH loadTime ++ "-20 12:00")
      ("創価高等学校食堂をご利用いただきありがとうございます。" ++ nl
         ++ "【注文内容】" ++ nl ++ "・きつねうどん" ++ nl ++ "・おにぎり");
    Email.mk "2" "【創価高等学校食堂】ご注文内容の確認"
      (CURRENT_MONTH loadTime ++ "-18 11:30")
      ("【注文内容】" ++ nl ++ "・カレーライス" ++ nl ++ "・サラダ");
    Email.mk "3" "【創価高等学校食堂】ご注文内容の確認"
      (CURRENT_MONTH loadTime ++ "-15 12:15")
      ("【注文内容】" ++ nl ++ "・たぬきうどん" ++ nl ++ "・唐揚げ") ].

Record AppState : Type := mkApp {
  orders : list CafeteriaOrder;
  isSyncing : bool;
  autoSync : bool;
  lastSyncTime : Date
}.

(** The state of the first render: the four [useState] initial values. *)
Definition initialState (now : Date) : AppState := mkApp [] false true now.

Definition setOrders (v : list CafeteriaOrder) (s : AppState) : AppState :=
  mkApp v (isSyncing s) (autoSync s) (lastSyncTime s).

Definition setIsSyncing (v : bool) (s : AppState) : AppState :=
  mkApp (orders s) v (autoSync s) (lastSyncTime s).

Definition setAutoSync (v : bool) (s : AppState) : AppState :=
  mkApp (orders s) (isSyncing s) v (lastSyncTime s).

Definition setLastSyncTime (v : Date) (s : AppState) : AppState :=
  mkApp (orders s) (isSyncing s) (autoSync s) v.

(** [a || b] on strings: the empty string is the only falsy one. *)
Definition or_else (a b : string) : string :=
  match a with
  | EmptyString => b
  | _ => a
  end.

(** [items.some(item => item.isUdon)] *)
Definition some_isUdon (its : list OrderItem) : bool := existsb isUdon its.

(** [processEmail]: [extraction] is what [await parseEmailContent(email.body)]
    produced, read at its declared type. *)
Definition processEmail (email : Email.t) (extraction : Outcome ParsedEmail)
  : Outcome CafeteriaOrder :=
  parsed <- extraction ;;
  let hasUdon := some_isUdon (p_items parsed) in
  Returned
    {| id := Email.id email;
       date := or_else (p_date parsed) (split_head " " (Email.date email));
       sender := "創価高等学校食堂";
       subject := Email.subject email;
       items := p_items parsed;
       fullText := Email.body email;
       hasUdon := hasUdon |}.

(** *** Initial data load

    [init] raises [isSyncing], awaits [Promise.all(MOCK_EMAILS.map(processEmail))]
    inside [try], replaces the orders by the results, logs in [catch], and
    lowers [isSyncing] in [finally].  [gemini] tells what the extraction of
    each message produced. *)
Definition init_begin (s : AppState) : AppState := setIsSyncing true s.

Definition init_settle (results : Outcome (list CafeteriaOrder)) (s : AppState)
  : AppState :=
  let s' := match results with
            | Returned rs => setOrders rs s
            | Raised _error => s   (* console.error only *)
            end in
  setIsSyncing false s'.

Definition init_results (emails : list Email.t)
    (gemini : Email.t -> Outcome ParsedEmail) : Outcome (list CafeteriaOrder) :=
  Promise_all (map (fun email => processEmail email (gemini email)) emails).

Definition init (emails : list Email.t) (gemini : Email.t -> Outcome ParsedEmail)
    (s : AppState) : AppState :=
  init_settle (init_results emails gemini) (init_begin s).

(** *** Polling: the callback of [setInterval] *)

Definition newEmail (rid : string) (now : Date) (isUdon : bool) : Email.t :=
  Email.mk rid "【創価高等学校食堂】ご注文内容の確認"
    (toLocaleString now)
    ("【注文内容】" ++ nl ++ "・" ++ (if isUdon then "月見うどん" else "味噌ラーメン")
       ++ nl ++ "・コロッケ").

(** The updater [prev => [processed, ...prev]] given to [setOrders]. *)
Definition append (processed : CafeteriaOrder) (prev : list CafeteriaOrder)
  : list CafeteriaOrder :=
  processed :: prev.

(** The store read back. *)
Definition all (s : AppState) : list CafeteriaOrder := orders s.

(** After [await processEmail(newEmail)]; a rejection ends the callback. *)
Definition poll_merge (processed : Outcome CafeteriaOrder) (s : AppState) : AppState :=
  match processed with
  | Returned o => setOrders (append o (orders s)) s
  | Raised _ => s
  end.

(** One firing of the timer; [checked] is the clock read for
    [setLastSyncTime].  [arrival] is [None] when [Math.random() > 0.7] fails,
    otherwise the random id, the clock read for the message, the coin for
    the dish and what the extraction produced. *)
Definition poll (checked : Date)
    (arrival : option (string * Date * bool * Outcome ParsedEmail)) (s : AppState)
  : AppState :=
  let s' := setLastSyncTime checked s in
  match arrival with
  | None => s'
  | Some (rid, now, isUdon, extraction) =>
      poll_merge (processEmail (newEmail rid now isUdon) extraction) s'
  end.

(** *** Manual sync *)

Definition handleManualSync_begin (s : AppState) : AppState := setIsSyncing true s.

(** After the awaited delay; [now] is the clock then. *)
Definition handleManualSync_resume (now : Date) (s : AppState) : AppState :=
  setIsSyncing false (setLastSyncTime now s).

Definition handleManualSync (now : Date) (s : AppState) : AppState :=
  handleManualSync_resume now (handleManualSync_begin s).

(** *** The component as a transition system

    Every state change the component can make, one constructor per
    uninterrupted piece of a handler. *)
Inductive step (loadTime : Date) : AppState -> AppState -> Prop :=
| step_init_begin s :
    step loadTime s (init_begin s)
| step_init_settle s gemini :
    step loadTime s (init_settle (init_results (MOCK_EMAILS loadTime) gemini) s)
| step_poll_check s now :
    autoSync s = true ->
    step loadTime s (setLastSyncTime now s)
| step_poll_merge s rid now isUdon extraction :
    step loadTime s (poll_merge (processEmail (newEmail rid now isUdon) extraction) s)
| step_sync_begin s :
    step loadTime s (handleManualSync_begin s)
| step_sync_resume s now :
    step loadTime s (handleManualSync_resume now s)
| step_toggle s v :
    step loadTime s (setAutoSync v s).

Inductive reachable (loadTime : Date) : AppState -> Prop :=
| reach_first now : reachable loadTime (initialState now)
| reach_step s s' :
    reachable loadTime s -> step loadTime s s' -> reachable loadTime s'.

(** *** Statistics *)

(** A length as a JavaScript number. *)
Definition number (n : nat) : float :=
  PrimFloat.of_uint63 (Uint63.of_Z (Z.of_nat n)).

Definition stats (loadTime : Date) (orders : list CafeteriaOrder) : Statistics :=
  let udonOrders := filter hasUdon orders in
  {| totalOrders := List.length orders;
     udonCount := List.length udonOrders;
     udonPercentage :=
       if (0 <? List.length orders)%nat
       then (number (List.length udonOrders) / number (List.length orders) * 100)%float
       else 0%float;
     thisMonthCount :=
       List.length
         (filter (fun o => startsWith (date o) (CURRENT_MONTH loadTime)) udonOrders) |}.

(** *** Chart series *)

Module Bucket.
(** [{ date: string, others: number, udon: number }] *)
Record t : Type := mk {
  date : string;
  others : nat;
  udon : nat
}.
End Bucket.

(** The body of [orders.forEach(o => ...)].

    [if (!groups[d]) groups[d] = {...}]: a bucket is an object and the
    members of [Object.prototype] are functions or objects, so [groups[d]]
    is falsy only when it is undefined; only then is a bucket made.

    [groups[d].udon += 1] and [groups[d].others += 1] change the object
    that [groups[d]] finds.  For an own bucket that is the bucket.  For a
    date that names a member of [Object.prototype] it is that member (the
    function [Object] for the date "constructor", say): the counter is
    written on it and [groups] keeps its properties as they are, so that
    [Object.values(groups)] never shows the order.  (What is written there
    is NaN, which is falsy: a later lookup of the dates "udon" or "others"
    still finds nothing truthy, as [plain_get] has it.) *)
Definition tally (groups : JsObject Bucket.t) (o : CafeteriaOrder)
  : JsObject Bucket.t :=
  let d := date o in
  let groups' := match plain_get groups d with
                 | Own _ | Inherited => groups
                 | Undefined => obj_set d (Bucket.mk d 0 0) groups
                 end in
  match plain_get groups' d with
  | Own _ =>
      if hasUdon o
      then obj_update d (fun g => Bucket.mk (Bucket.date g) (Bucket.others g)
                                            (Bucket.udon g + 1)) groups'
      else obj_update d (fun g => Bucket.mk (Bucket.date g) (Bucket.others g + 1)
                                            (Bucket.udon g)) groups'
  | Inherited => groups'
  | Undefined => groups'   (* not reached: [groups'[d]] is truthy *)
  end.

Definition groupsOf (orders : list CafeteriaOrder) : JsObject Bucket.t :=
  fold_left tally orders [].

(** [(a, b) => a.date.localeCompare(b.date)] put as "a goes before or with b". *)
Definition byDate (localeCompare : string -> string -> Z) (a b : Bucket.t) : bool :=
  (localeCompare (Bucket.date a) (Bucket.date b) <=? 0)%Z.

(** [Object.values(groups).sort(...)], before the window is cut. *)
Definition sortedGroups (localeCompare : string -> string -> Z)
    (orders : list CafeteriaOrder) : list Bucket.t :=
  Array_sort (byDate localeCompare) (Object_values (groupsOf orders)).

Definition chartData (localeCompare : string -> string -> Z)
    (orders : list CafeteriaOrder) : list Bucket.t :=
  slice_last 14 (sortedGroups localeCompare orders).

(** The number of orders of period [p] that contain udon, as the
    specification words the current-period count. *)
Definition countInPeriod (p : string) (orders : list CafeteriaOrder) : nat :=
  List.length (filter (fun o => hasUdon o && startsWith (date o) p) orders).

(** The distinct [date] strings of an order list. *)
Definition distinctDates (orders : list CafeteriaOrder) : list string :=
  nodup string_dec (map date orders).

(** Orders of date [d] with, or without, udon. *)
Definition ordersOn (d : string) (udon : bool) (orders : list CafeteriaOrder)
  : list CafeteriaOrder :=
  filter (fun o => String.eqb (date o) d && Bool.eqb (hasUdon o) udon) orders.

(** [sum(bucket.udon + bucket.others)] *)
Definition bucketTotal (bs : list Bucket.t) : nat :=
  fold_right (fun b acc => Bucket.udon b + Bucket.others b + acc) 0 bs.

(** What [groups] holds once the orders [seen] have been visited: one
    property per date seen, whose bucket carries that date and the two
    counts of the orders of that date. *)
Definition tallied (groups : JsObject Bucket.t) (seen : list CafeteriaOrder) : Prop :=
  NoDup (map fst groups)
  /\ (forall k b, In (k, b) groups ->
        Bucket.date b = k
        /\ In k (map date seen)
        /\ Bucket.udon b = List.length (ordersOn k true seen)
        /\ Bucket.others b = List.length (ordersOn k false seen))
  /\ (forall o, In o seen -> In (date o) (map fst groups)).

(** ** The second copy of the component

    The repository holds a second copy of [App], which differs from the one
    above in these places: the mock messages carry fixed dates, [processEmail]
    takes the date from the extraction alone, [init] has no [try], [stats]
    compares with the literal ['2024-03'], and [chartData] counts all orders
    of a date in [count] and cuts no window. *)
Module AppVariant.

Definition MOCK_EMAILS : list Email.t :=
  [ Email.mk "1" "【創価高等学校食堂】ご注文内容の確認" "2024-03-20 12:00"
      ("創価高等学校食堂をご利用いただきありがとうございます。" ++ nl
         ++ "【注文内容】" ++ nl ++ "・きつねうどん" ++ nl ++ "・おにぎり");
    Email.mk "2" "【創価高等学校食堂】ご注文内容の確認" "2024-03-18 11:30"
      ("【注文内容】" ++ nl ++ "・カレーライス" ++ nl ++ "・サラダ");
    Email.mk "3" "【創価高等学校食堂】ご注文内容の確認" "2024-03-15 12:15"
      ("【注文内容】" ++ nl ++ "・たぬきうどん" ++ nl ++ "・唐揚げ") ].

Definition processEmail (email : Email.t) (extraction : Outcome ParsedEmail)
  : Outcome CafeteriaOrder :=
  parsed <- extraction ;;
  let hasUdon := some_isUdon (p_items parsed) in
  Returned
    {| id := Email.id email;
       date := p_date parsed;
       sender := "創価高等学校食堂";
       subject := Email.subject email;
       items := p_items parsed;
       fullText := Email.body email;
       hasUdon := hasUdon |}.

(** No [try]: a rejection of [Promise.all] ends [init] after its first
    statement. *)
Definition init (emails : list Email.t) (gemini : Email.t -> Outcome ParsedEmail)
    (s : AppState) : AppState :=
  let s1 := setIsSyncing true s in
  match Promise_all (map (fun email => processEmail email (gemini email)) emails) with
  | Returned results => setIsSyncing false (setOrders results s1)
  | Raised _ => s1
  end.

Definition stats (orders : list CafeteriaOrder) : Statistics :=
  let udonOrders := filter hasUdon orders in
  {| totalOrders := List.length orders;
     udonCount := List.length udonOrders;
     udonPercentage :=
       if (0 <? List.length orders)%nat
       then (number (List.length udonOrders) / number (List.length orders) * 100)%float
       else 0%float;
     thisMonthCount :=
       List.length (filter (fun o => startsWith (date o) "2024-03") udonOrders) |}.

Module Bucket.
(** [{ date: string, count: number, udon: number }] *)
Record t : Type := mk {
  date : string;
  count : nat;
  udon : nat
}.
End Bucket.

(** The same lookups as in the first copy: a date that names a member of
    [Object.prototype] gets no bucket, and its two [+=] are written on
    that member. *)
Definition tally (groups : JsObject Bucket.t) (o : CafeteriaOrder)
  : JsObject Bucket.t :=
  let d := date o in
  let groups0 := match plain_get groups d with
                 | Own _ | Inherited => groups
                 | Undefined => obj_set d (Bucket.mk d 0 0) groups
                 end in
  match plain_get groups0 d with
  | Own _ =>
      let groups1 := obj_update d (fun g => Bucket.mk (Bucket.date g) (Bucket.count g + 1)
                                                      (Bucket.udon g)) groups0 in
      if hasUdon o
      then obj_update d (fun g => Bucket.mk (Bucket.date g) (Bucket.count g)
                                            (Bucket.udon g + 1)) groups1
      else groups1
  | Inherited => groups0
  | Undefined => groups0   (* not reached: [groups0[d]] is truthy *)
  end.

Definition chartData (localeCompare : string -> string -> Z)
    (orders : list CafeteriaOrder) : list Bucket.t :=
  Array_sort
    (fun a b => (localeCompare (Bucket.date a) (Bucket.date b) <=? 0)%Z)
    (Object_values (fold_left tally orders [])).

End AppVariant.

(** ** Inputs used in the examples below *)

Definition noon : Date := mkDate "2026-11-02T03:00:00.000Z" "11/2/2026, 12:00:00 PM".

Definition kitsune : ParsedEmail :=
  mkParsed [mkItem "きつねうどん" true; mkItem "おにぎり" false] "2024-03-20".

Definition udonOrder (i d : string) : CafeteriaOrder :=
  mkOrder i d "創価高等学校食堂" "" [mkItem "月見うどん" true] "" true.

Definition riceOrder (i d : string) : CafeteriaOrder :=
  mkOrder i d "創価高等学校食堂" "" [mkItem "カレーライス" false] "" false.

(** An extraction service that fails for message 2 only. *)
Definition failsOnSecond (email : Email.t) : Outcome ParsedEmail :=
  if String.eqb (Email.id email) "2"
  then Raised (ServiceError "timeout")
  else Returned kitsune.

(** Comparison of strings by code units, as a [localeCompare] to run the
    chart on. *)
Definition codeUnitCompare (a b : string) : Z :=
  match String.compare a b with
  | Lt => (-1)%Z
  | Eq => 0%Z
  | Gt => 1%Z
  end.

(** An extraction service that answers every message with the same items. *)
Definition alwaysKitsune (email : Email.t) : Outcome ParsedEmail := Returned kitsune.

(** An order found by the polling loop, and the store after it has been
    appended once and twice. *)
Definition polledOrder : CafeteriaOrder := udonOrder "k3x9" "2024-03-20".

Definition polledOnce : AppState := poll_merge (Returned polledOrder) (initialState noon).

Definition polledTwice : AppState := poll_merge (Returned polledOrder) polledOnce.

(** The state after the initial load and one firing of the timer that
    found a message. *)
Definition loadedAndPolled : AppState :=
  poll noon (Some ("k3x9", noon, true, Returned kitsune))
    (init (MOCK_EMAILS noon) alwaysKitsune (initialState noon)).

(** Four orders on three dates. *)
Definition chartSample : list CafeteriaOrder :=
  [udonOrder "1" "2024-03-20"; riceOrder "2" "2024-03-18";
   udonOrder "3" "2024-03-15"; riceOrder "4" "2024-03-20"].

(** ** Further notions *)

(** Whether the character [c] occurs in [s]. *)
Fixpoint occurs (c : ascii) (s : string) : bool :=
  match s with
  | EmptyString => false
  | String c' s' => Ascii.eqb c' c || occurs c s'
  end.

(** Two orders of different dates, with and without udon. *)
Definition storeSample : list CafeteriaOrder :=
  [udonOrder "7" "2026-11-02"; riceOrder "8" "2026-10-30"].

(** An extraction service that finds udon but no date. *)
Definition undatedUdon (email : Email.t) : Outcome ParsedEmail :=
  Returned (mkParsed [mkItem "月見うどん" true] "").

(** A reply of the declared shape, as [JSON.parse] returns it. *)
Definition kitsuneReply : JSON :=
  JObject [("date", JString "2024-03-20");
           ("items", JArray [JObject [("name", JString "きつねうどん");
                                      ("isUdon", JBool true)];
                             JObject [("name", JString "おにぎり");
                                      ("isUdon", JBool false)]])].

(** The sum of one counter over the buckets of a series: the total height
    of the bars drawn for it. *)
Definition sumOver (m : Bucket.t -> nat) (bs : list Bucket.t) : nat :=
  fold_right (fun b acc => m b + acc) 0 bs.

(** The bucket of date [k] for the orders [os]. *)
Definition bucketOf (os : list CafeteriaOrder) (k : string) : Bucket.t :=
  Bucket.mk k (List.length (ordersOn k false os)) (List.length (ordersOn k true os)).

(** The same object with [f] applied to every value. *)
Definition obj_map {V W : Type} (f : V -> W) (o : JsObject V) : JsObject W :=
  map (fun kv => (fst kv, f (snd kv))) o.

(** A bucket of the chart as the second copy of the component counts it:
    [count] takes every order of the date. *)
Definition toVariantBucket (b : Bucket.t) : AppVariant.Bucket.t :=
  AppVariant.Bucket.mk (Bucket.date b) (Bucket.udon b + Bucket.others b) (Bucket.udon b).

(** A clock of March 2024. *)
Definition marchLoad : Date := mkDate "2024-03-21T09:00:00.000Z" "3/21/2024, 6:00:00 PM".

(** [sum(bucket.count)] over the chart of the second copy. *)
Definition variantCountTotal (bs : list AppVariant.Bucket.t) : nat :=
  fold_right (fun b acc => AppVariant.Bucket.count b + acc) 0 bs.

(** ** What the component renders from its state *)


(** [disabled={isSyncing}] on the sync button. *)
Definition syncDisabled (s : AppState) : bool := isSyncing s.

(** A click on the sync button starts [handleManualSync] unless the button
    is disabled. *)
Definition clickSync (s : AppState) : AppState :=
  if syncDisabled s then s else handleManualSync_begin s.

(** The polling callback of the second copy of the component: the message
    carries the ISO rendering of the clock. *)
Definition variantNewEmail (rid : string) (now : Date) (isUdon : bool) : Email.t :=
  Email.mk rid "【創価高等学校食堂】ご注文内容の確認"
    (toISOString now)
    ("【注文内容】" ++ nl ++ "・" ++ (if isUdon then "月見うどん" else "味噌ラーメン")
       ++ nl ++ "・コロッケ").

Definition variantPoll (checked : Date)
    (arrival : option (string * Date * bool * Outcome ParsedEmail)) (s : AppState)
  : AppState :=
  let s' := setLastSyncTime checked s in
  match arrival with
  | None => s'
  | Some (rid, now, isUdon, extraction) =>
      poll_merge (AppVariant.processEmail (variantNewEmail rid now isUdon) extraction) s'
  end.

(** What can happen to the second copy while no [init] and no manual sync
    is suspended: the timer fires, the user toggles auto-sync, the user
    clicks the sync button. *)
Inductive variantIdleStep : AppState -> AppState -> Prop :=
| vstep_poll s checked arrival : variantIdleStep s (variantPoll checked arrival s)
| vstep_toggle s v : variantIdleStep s (setAutoSync v s)
| vstep_click s : variantIdleStep s (clickSync s).

Inductive variantLater : AppState -> AppState -> Prop :=
| vlater_now s : variantLater s s
| vlater_step s s' s'' :
    variantLater s s' -> variantIdleStep s' s'' -> variantLater s s''.

(** ** Notions used to state what the chart holds *)

(** The orders the chart takes in: those whose date names no member of
    [Object.prototype]. *)
Definition charted (os : list CafeteriaOrder) : list CafeteriaOrder :=
  filter (fun o => negb (inherited (date o))) os.

(** What [tally] does for an order whose date names no inherited member,
    written with lookups among the own properties only; used in the proofs. *)
Definition tallyOwn (groups : JsObject Bucket.t) (o : CafeteriaOrder)
  : JsObject Bucket.t :=
  let d := date o in
  let groups' := match obj_get groups d with
                 | Some _ => groups
                 | None => obj_set d (Bucket.mk d 0 0) groups
                 end in
  if hasUdon o
  then obj_update d (fun g => Bucket.mk (Bucket.date g) (Bucket.others g)
                                        (Bucket.udon g + 1)) groups'
  else obj_update d (fun g => Bucket.mk (Bucket.date g) (Bucket.others g + 1)
                                        (Bucket.udon g)) groups'.

(** The same for the [tally] of the second copy. *)
Definition variantTallyOwn (groups : JsObject AppVariant.Bucket.t) (o : CafeteriaOrder)
  : JsObject AppVariant.Bucket.t :=
  let d := date o in
  let groups0 := match obj_get groups d with
                 | Some _ => groups
                 | None => obj_set d (AppVariant.Bucket.mk d 0 0) groups
                 end in
  let groups1 := obj_update d (fun g => AppVariant.Bucket.mk (AppVariant.Bucket.date g)
                                          (AppVariant.Bucket.count g + 1)
                                          (AppVariant.Bucket.udon g)) groups0 in
  if hasUdon o
  then obj_update d (fun g => AppVariant.Bucket.mk (AppVariant.Bucket.date g)
                                (AppVariant.Bucket.count g)
                                (AppVariant.Bucket.udon g + 1)) groups1
  else groups1.

(** An order of a usual date and an order whose date is the name of a
    member of [Object.prototype]. *)
Definition inheritedSample : list CafeteriaOrder :=
  [udonOrder "1" "2024-03-20"; riceOrder "2" "constructor"].


(** A comparator that ranks all strings as equal. *)
Definition allEqual (a b : string) : Z := 0%Z.

(* ================================================================== *)
(** * Part II: properties *)
(* ================================================================== *)

(** ** Strings *)

Lemma split_head_nil_iff (sep : ascii) (s : string) :
  split_head sep s = "" <-> s = "" \/ exists rest, s = String sep rest.
Proof.
  destruct s as [|c s']; simpl.
  - split; [now left | reflexivity].
  - destruct (Ascii.eqb_spec c sep) as [->|Hne].
    + split; [intros _; right; now exists s' | reflexivity].
    + split; [discriminate|].
      intros [H|[rest H]]; [discriminate|].
      injection H as Hc _. contradiction.
Qed.

(** [split_head] cuts [s] right before its first separator. *)
Lemma split_head_cut (sep : ascii) (s : string) :
  (split_head sep s = s \/ exists rest, s = split_head sep s ++ String sep rest)
  /\ forall n, String.get n (split_head sep s) <> Some sep.
Proof.
  induction s as [|c s' [IHcut IHfree]]; simpl.
  - split; [now left | intros n; destruct n; discriminate].
  - destruct (Ascii.eqb_spec c sep) as [->|Hne].
    + split; [right; now exists s' | intros n; destruct n; discriminate].
    + split.
      * destruct IHcut as [-> | [rest Hrest]]; [now left|].
        right. exists rest. simpl. now rewrite <- Hrest.
      * intros [|n]; simpl; [congruence | apply IHfree].
Qed.

Lemma or_else_nonempty (a b : string) : a <> "" -> or_else a b = a.
Proof. destruct a; [contradiction | reflexivity]. Qed.

Lemma or_else_nil_iff (a b : string) : or_else a b = "" <-> a = "" /\ b = "".
Proof.
  destruct a; simpl; split; try tauto; try discriminate.
Qed.

(** ** Order store *)

(** C1 (as the code has it): the polling path puts the processed order at
    the front of the store whether or not an order with the same id is
    there; nothing looks for the id, so appending the same order twice
    leaves it in the store twice. *)
Theorem append_always_inserts_at_front :
  forall (s : AppState) (o : CafeteriaOrder),
    all (poll_merge (Returned o) s) = o :: all s
    /\ all (poll_merge (Returned o) (poll_merge (Returned o) s)) = o :: o :: all s.
Proof.
  intros s o. unfold all, poll_merge, append. simpl. split; reflexivity.
Qed.

(** C1 fails as stated: after a first append of an order, a second append
    of the same order changes [all()]. *)
Lemma append_same_id_twice_changes_store :
  all polledOnce = [polledOrder]
  /\ all polledTwice = [polledOrder; polledOrder]
  /\ all polledTwice <> all polledOnce.
Proof.
  repeat split; try reflexivity. discriminate.
Qed.

(** ** Extraction adapter *)

(** C2 (as the code has it): a rejected service call leaves
    [parseEmailContent] as a rejection; once the call is fulfilled nothing
    is raised: a text that is no JSON gives no items and the current day as
    date, a missing text is read as the empty object, and any JSON value is
    handed back as it is, whatever its shape. *)
Theorem parseEmailContent_outcomes :
  forall now : Date,
    (forall e, parseEmailContent now (Rejected e) = Raised e)
    /\ parseEmailContent now (Fulfilled Malformed)
       = Returned (JObject [("items", JArray []); ("date", JString (isoDay now))])
    /\ parseEmailContent now (Fulfilled NoText) = Returned (JObject [])
    /\ (forall v, parseEmailContent now (Fulfilled (JSONText v)) = Returned v)
    /\ (forall text, exists v, parseEmailContent now (Fulfilled text) = Returned v).
Proof.
  intros now. repeat split; try reflexivity.
  intros [| |v]; eexists; reflexivity.
Qed.

(** C2 fails as stated: a timeout of the service is raised to the caller;
    a malformed reply yields today's date, not the empty date; a reply of
    another shape is returned unchanged. *)
Lemma parseEmailContent_not_normalised :
  parseEmailContent noon (Rejected (ServiceError "timeout"))
    = Raised (ServiceError "timeout")
  /\ (exists v, parseEmailContent noon (Fulfilled Malformed) = Returned v
                /\ asParsedEmail v = Some (mkParsed [] "2026-11-02")
                /\ asParsedEmail v <> Some emptyResult)
  /\ (exists v, parseEmailContent noon (Fulfilled (JSONText (JString "sorry"))) = Returned v
                /\ asParsedEmail v = None).
Proof.
  split; [reflexivity|]. split.
  - eexists. split; [reflexivity|]. split; [reflexivity | discriminate].
  - eexists. split; reflexivity.
Qed.

(** What the adapter hands to [processEmail] on its own fallback, read at
    the declared type. *)
Lemma parseEmailContent_fallback_typed (now : Date) :
  exists v, parseEmailContent now (Fulfilled Malformed) = Returned v
            /\ asParsedEmail v = Some (mkParsed [] (isoDay now)).
Proof. eexists. split; reflexivity. Qed.

(** On a reply of the declared shape the untyped evaluation of
    [parsed.items.some(item => item.isUdon)] is the typed one. *)
Lemma some_item_isUdon_typed (vs : list JSON) (its : list OrderItem) :
  asOrderItems vs = Some its ->
  some_item_isUdon vs = Returned (some_isUdon its).
Proof.
  revert its. induction vs as [|v vs IH]; simpl; intros its H.
  - injection H as <-. reflexivity.
  - destruct (asOrderItem v) as [i|] eqn:Hv; [|discriminate].
    destruct (asOrderItems vs) as [is'|]; [|discriminate].
    injection H as <-. unfold asOrderItem in Hv.
    destruct v as [| | | | |ps]; try discriminate.
    destruct (property "name" ps) as [[| | |n| |]|]; try discriminate.
    destruct (property "isUdon" ps) as [[|b| | | |]|] eqn:Hflag; try discriminate.
    injection Hv as <-. simpl. rewrite Hflag. simpl.
    destruct b; simpl; [reflexivity|]. now apply IH.
Qed.

Lemma parsed_items_some_typed (v : JSON) (parsed : ParsedEmail) :
  asParsedEmail v = Some parsed ->
  parsed_items_some v = Returned (some_isUdon (p_items parsed)).
Proof.
  unfold asParsedEmail, parsed_items_some. intros H.
  destruct v as [| | | | |ps]; try discriminate.
  destruct (property "date" ps) as [[| | |d| |]|]; try discriminate.
  simpl. destruct (property "items" ps) as [[| | | |vs|]|]; try discriminate.
  destruct (asOrderItems vs) as [its|] eqn:Hits; [|discriminate].
  injection H as <-. simpl. now apply some_item_isUdon_typed.
Qed.

(** A reply without text is parsed as [{}], which has no [items]: the
    first statement of [processEmail] then throws. *)
Lemma empty_reply_breaks_builder (now : Date) :
  parseEmailContent now (Fulfilled NoText) = Returned (JObject [])
  /\ asParsedEmail (JObject []) = None
  /\ parsed_items_some (JObject []) = Raised TypeError.
Proof. repeat split. Qed.

(** ** Order builder *)

Lemma processEmail_returned (email : Email.t) (parsed : ParsedEmail) :
  exists o, processEmail email (Returned parsed) = Returned o
            /\ id o = Email.id email
            /\ date o = or_else (p_date parsed) (split_head " " (Email.date email))
            /\ subject o = Email.subject email
            /\ items o = p_items parsed
            /\ fullText o = Email.body email
            /\ hasUdon o = existsb isUdon (p_items parsed).
Proof. eexists. split; [reflexivity|]. simpl. repeat split. Qed.

Lemma processEmail_raised (email : Email.t) (e : JsError) :
  processEmail email (Raised e) = Raised e.
Proof. reflexivity. Qed.

(** Scenario A of the specification. *)
Example processEmail_scenario_A :
  exists o, processEmail (nth 0 (MOCK_EMAILS noon) (Email.mk "" "" "" ""))
              (Returned kitsune) = Returned o
            /\ id o = "1" /\ date o = "2024-03-20"
            /\ hasUdon o = true /\ List.length (items o) = 2.
Proof. eexists. split; [reflexivity|]. repeat split. Qed.

(** C3 (as the code has it): the date of the order is the extracted date
    when that is not empty, otherwise what stands before the first space of
    the message's own date; there is no third source, and the date is empty
    exactly when the extracted date is empty and the message date is empty
    or begins with a space. *)
Theorem processEmail_date :
  forall (email : Email.t) (parsed : ParsedEmail),
  exists o,
    processEmail email (Returned parsed) = Returned o
    /\ (p_date parsed <> "" -> date o = p_date parsed)
    /\ (p_date parsed = "" -> date o = split_head " " (Email.date email))
    /\ (date o = "" <->
        p_date parsed = ""
        /\ (Email.date email = ""
            \/ exists rest, Email.date email = String " " rest)).
Proof.
  intros email parsed.
  destruct (processEmail_returned email parsed) as (o & Ho & _ & Hd & _).
  exists o. split; [exact Ho|]. rewrite Hd.
  split; [apply or_else_nonempty|].
  split; [intros ->; reflexivity|].
  rewrite or_else_nil_iff, split_head_nil_iff. reflexivity.
Qed.

Lemma processEmail_date_witness :
  exists o,
    processEmail (Email.mk "2" "" "2024-03-18 11:30" "") (Returned emptyResult)
      = Returned o
    /\ date o = "2024-03-18".
Proof.
  destruct (processEmail_date (Email.mk "2" "" "2024-03-18 11:30" "") emptyResult)
    as (o & Ho & _ & Hd & _).
  exists o. split; [exact Ho|]. rewrite Hd; reflexivity.
Defined.

(** C3 fails as stated: with an empty extraction and an empty message date
    the order's date is empty, and a message date whose parts are separated
    by a tab is taken whole. *)
Lemma processEmail_date_empty :
  (exists o, processEmail (Email.mk "9" "" "" "") (Returned emptyResult) = Returned o
             /\ date o = "")
  /\ (exists o, processEmail (Email.mk "9" "" " 2024-03-18" "") (Returned emptyResult)
                  = Returned o
                /\ date o = "")
  /\ (exists o, processEmail (Email.mk "9" "" ("2024-03-18" ++ String "009" "11:30") "")
                  (Returned emptyResult) = Returned o
                /\ date o = "2024-03-18" ++ String "009" "11:30").
Proof.
  repeat split; eexists; split; reflexivity.
Qed.

(** ** Initial load *)

Lemma Promise_all_returned (A : Type) (ps : list (Outcome A)) (rs : list A) :
  Promise_all ps = Returned rs <-> ps = map Returned rs.
Proof.
  revert rs. induction ps as [|p ps IH]; intros rs; simpl.
  - destruct rs; simpl; split; intros H; try discriminate; reflexivity.
  - destruct p as [a|e].
    + destruct (Promise_all ps) as [rest|e'] eqn:Hall.
      * split.
        -- intros H. injection H as <-. simpl. f_equal. now apply IH.
        -- destruct rs as [|r rs']; simpl; [discriminate|].
           intros H. injection H as <- Hps. apply IH in Hps.
           now injection Hps as ->.
      * split; [discriminate|].
        destruct rs as [|r rs']; simpl; [discriminate|].
        intros H. injection H as _ Hps. apply IH in Hps. discriminate.
    + split; [discriminate|]. destruct rs; discriminate.
Qed.

Lemma Promise_all_raised (A : Type) (ps : list (Outcome A)) :
  (exists e, In (Raised e) ps) <-> exists e, Promise_all ps = Raised e.
Proof.
  induction ps as [|p ps IH]; simpl.
  - split; intros [e H]; [contradiction | discriminate].
  - destruct p as [a|e0].
    + destruct (Promise_all ps) as [rest|e'].
      * split.
        -- intros [e [H|H]]; [discriminate|].
           assert (Hex : exists e1, In (@Raised A e1) ps) by now exists e.
           apply IH in Hex. destruct Hex as [e1 He1]. discriminate.
        -- intros [e H]. discriminate.
      * split; [intros _; now exists e'|].
        intros _. destruct IH as [_ IH]. destruct IH as [e1 He1]; [now exists e'|].
        exists e1. now right.
    + split; intros _; exists e0; [reflexivity | now left].
Qed.

Lemma init_results_returned (emails : list Email.t)
    (gemini : Email.t -> Outcome ParsedEmail) :
  (forall email, In email emails -> exists parsed, gemini email = Returned parsed) ->
  exists rs, init_results emails gemini = Returned rs
             /\ Forall2 (fun email o => processEmail email (gemini email) = Returned o)
                        emails rs.
Proof.
  unfold init_results. induction emails as [|email emails IH]; intros Hall; simpl.
  - exists []. split; [reflexivity | constructor].
  - destruct IH as (rs & Hrs & Hf2); [intros e He; apply Hall; now right|].
    destruct (Hall email (or_introl eq_refl)) as [parsed Hp].
    rewrite Hrs, Hp. simpl. eexists. split; [reflexivity|].
    constructor; [cbv beta; rewrite Hp; reflexivity | exact Hf2].
Qed.

Lemma init_results_raised (emails : list Email.t)
    (gemini : Email.t -> Outcome ParsedEmail) :
  (exists email e, In email emails /\ gemini email = Raised e) ->
  exists e, init_results emails gemini = Raised e.
Proof.
  intros (email & e & Hin & He). unfold init_results.
  apply Promise_all_raised. exists e.
  apply in_map_iff. exists email. split; [now rewrite He | exact Hin].
Qed.

(** C4 (as the code has it): the initial load is all or nothing.  When
    every extraction of the batch returns, every message yields its order
    and the store is set to these orders, in message order; when one
    extraction raises, the whole batch is dropped and the store keeps what
    it held.  Either way [isSyncing] is false when [init] is done. *)
Theorem init_batch_all_or_nothing :
  forall (emails : list Email.t) (gemini : Email.t -> Outcome ParsedEmail)
         (s : AppState),
    isSyncing (init_begin s) = true
    /\ isSyncing (init emails gemini s) = false
    /\ ((forall email, In email emails -> exists parsed, gemini email = Returned parsed) ->
        Forall2 (fun email o => processEmail email (gemini email) = Returned o)
                emails (orders (init emails gemini s)))
    /\ ((exists email e, In email emails /\ gemini email = Raised e) ->
        orders (init emails gemini s) = orders s).
Proof.
  intros emails gemini s. unfold init, init_settle.
  split; [reflexivity|]. split; [reflexivity|]. split.
  - intros Hall. destruct (init_results_returned emails gemini Hall) as (rs & -> & Hf2).
    exact Hf2.
  - intros Hex. destruct (init_results_raised emails gemini Hex) as [e ->].
    reflexivity.
Qed.

Lemma init_batch_all_or_nothing_witness :
  List.length (orders (init (MOCK_EMAILS noon) alwaysKitsune (initialState noon))) = 3
  /\ orders (init (MOCK_EMAILS noon) failsOnSecond
               (setOrders [udonOrder "0" "2024-03-01"] (initialState noon)))
     = [udonOrder "0" "2024-03-01"].
Proof.
  split.
  - destruct (init_batch_all_or_nothing (MOCK_EMAILS noon) alwaysKitsune
                (initialState noon)) as (_ & _ & Hok & _).
    assert (H : forall email, In email (MOCK_EMAILS noon) ->
                  exists parsed, alwaysKitsune email = Returned parsed)
      by (intros email _; exists kitsune; reflexivity).
    apply Hok in H. apply Forall2_length in H. rewrite <- H. reflexivity.
  - destruct (init_batch_all_or_nothing (MOCK_EMAILS noon) failsOnSecond
                (setOrders [udonOrder "0" "2024-03-01"] (initialState noon)))
      as (_ & _ & _ & Hko).
    rewrite Hko; [reflexivity|].
    exists (nth 1 (MOCK_EMAILS noon) (Email.mk "" "" "" "")), (ServiceError "timeout").
    split; [simpl; tauto | reflexivity].
Defined.

(** C4 fails as stated: the extraction of the second of the three messages
    times out, those of the first and third succeed, and no order at all
    reaches the store. *)
Lemma init_one_failure_drops_batch :
  map (fun email => match failsOnSecond email with
                    | Returned _ => true
                    | Raised _ => false
                    end) (MOCK_EMAILS noon) = [true; false; true]
  /\ orders (init (MOCK_EMAILS noon) failsOnSecond (initialState noon)) = []
  /\ isSyncing (init (MOCK_EMAILS noon) failsOnSecond (initialState noon)) = false.
Proof. repeat split. Qed.

(** In the second copy of the component the same failure also leaves
    [isSyncing] raised. *)
Lemma variant_init_failure_keeps_syncing :
  orders (AppVariant.init AppVariant.MOCK_EMAILS failsOnSecond (initialState noon)) = []
  /\ isSyncing (AppVariant.init AppVariant.MOCK_EMAILS failsOnSecond (initialState noon))
     = true.
Proof. split; reflexivity. Qed.

(** ** The udon flag of an order *)

Lemma processEmail_hasUdon (email : Email.t) (extraction : Outcome ParsedEmail)
    (o : CafeteriaOrder) :
  processEmail email extraction = Returned o ->
  hasUdon o = existsb isUdon (items o).
Proof.
  destruct extraction as [parsed|e]; simpl; [|discriminate].
  intros H. injection H as <-. reflexivity.
Qed.

Lemma existsb_isUdon_iff (its : list OrderItem) :
  existsb isUdon its = true <-> exists i, In i its /\ isUdon i = true.
Proof. apply existsb_exists. Qed.

Lemma init_results_built (emails : list Email.t)
    (gemini : Email.t -> Outcome ParsedEmail) (rs : list CafeteriaOrder) :
  init_results emails gemini = Returned rs ->
  Forall (fun o => hasUdon o = existsb isUdon (items o)) rs.
Proof.
  unfold init_results. intros H. apply Promise_all_returned in H.
  apply Forall_forall. intros o Ho.
  assert (Hin : In (Returned o) (map (@Returned CafeteriaOrder) rs))
    by now apply in_map.
  rewrite <- H in Hin. apply in_map_iff in Hin. destruct Hin as (email & Hp & _).
  now apply processEmail_hasUdon in Hp.
Qed.

(** No transition of the component touches an order that is in the store,
    and the only orders it adds come from [processEmail]. *)
Lemma step_preserves_flags (loadTime : Date) (s s' : AppState) :
  step loadTime s s' ->
  Forall (fun o => hasUdon o = existsb isUdon (items o)) (orders s) ->
  Forall (fun o => hasUdon o = existsb isUdon (items o)) (orders s').
Proof.
  intros Hstep Hinv.
  destruct Hstep as [s | s gemini | s now _ | s rid now coin extraction
                     | s | s now | s v]; simpl; try exact Hinv.
  - unfold init_settle.
    destruct (init_results (MOCK_EMAILS loadTime) gemini) as [rs|e] eqn:Hres;
      simpl; [|exact Hinv].
    now apply init_results_built in Hres.
  - unfold poll_merge.
    destruct (processEmail (newEmail rid now coin) extraction) as [o|e] eqn:Hp;
      simpl; [|exact Hinv].
    constructor; [now apply processEmail_hasUdon in Hp | exact Hinv].
Qed.

Lemma reachable_flags (loadTime : Date) (s : AppState) :
  reachable loadTime s ->
  Forall (fun o => hasUdon o = existsb isUdon (items o)) (orders s).
Proof.
  induction 1 as [now | s s' _ IH Hstep]; simpl.
  - constructor.
  - exact (step_preserves_flags Hstep IH).
Qed.

(** C5: an order built by [processEmail] has [hasUdon] true exactly when
    one of its items has [isUdon] true, and this holds of every order in
    the store in every state the component can reach: no transition changes
    an order once it is built. *)
Theorem hasUdon_iff_some_item_isUdon :
  (forall (email : Email.t) (extraction : Outcome ParsedEmail) (o : CafeteriaOrder),
      processEmail email extraction = Returned o ->
      (hasUdon o = true <-> exists i, In i (items o) /\ isUdon i = true))
  /\ (forall (loadTime : Date) (s : AppState),
         reachable loadTime s ->
         forall o, In o (orders s) ->
                   (hasUdon o = true <-> exists i, In i (items o) /\ isUdon i = true)).
Proof.
  split.
  - intros email extraction o H. rewrite (processEmail_hasUdon _ _ H).
    apply existsb_isUdon_iff.
  - intros loadTime s Hreach o Ho.
    pose proof (reachable_flags Hreach) as Hall.
    rewrite Forall_forall in Hall. rewrite (Hall o Ho).
    apply existsb_isUdon_iff.
Qed.

Lemma hasUdon_iff_some_item_isUdon_witness :
  List.length (orders loadedAndPolled) = 4
  /\ Forall (fun o => hasUdon o = true <-> exists i, In i (items o) /\ isUdon i = true)
            (orders loadedAndPolled).
Proof.
  split; [reflexivity|].
  destruct hasUdon_iff_some_item_isUdon as [_ Hstore].
  apply Forall_forall. apply (Hstore noon).
  eapply reach_step.
  - eapply reach_step.
    + eapply reach_step.
      * eapply reach_step; [apply (reach_first noon noon) | apply step_init_begin].
      * apply step_init_settle with (gemini := alwaysKitsune).
    + apply step_poll_check with (now := noon). reflexivity.
  - apply step_poll_merge with (rid := "k3x9") (now := noon) (isUdon := true)
                               (extraction := Returned kitsune).
Defined.

(** ** Manual sync *)

(** C9: a manual sync leaves the orders as they are.  Neither half of the
    handler writes them, so this holds of the whole call and of each half
    applied to whatever state it finds; [lastSyncTime] becomes the clock at
    the end of the delay, [isSyncing] is true during the delay and false
    after it. *)
Theorem handleManualSync_keeps_orders :
  forall (now : Date) (s : AppState),
    orders (handleManualSync now s) = orders s
    /\ orders (handleManualSync_begin s) = orders s
    /\ orders (handleManualSync_resume now s) = orders s
    /\ autoSync (handleManualSync now s) = autoSync s
    /\ lastSyncTime (handleManualSync now s) = now
    /\ isSyncing (handleManualSync_begin s) = true
    /\ isSyncing (handleManualSync now s) = false.
Proof. intros now s. repeat split. Qed.

(** ** Statistics *)

Lemma filter_length_bound (A : Type) (f : A -> bool) (l : list A) :
  List.length (filter f l) <= List.length l.
Proof.
  induction l as [|x l IH]; simpl; [lia|].
  destruct (f x); simpl; lia.
Qed.

Lemma filter_filter_and (A : Type) (f g : A -> bool) (l : list A) :
  filter g (filter f l) = filter (fun x => f x && g x) l.
Proof.
  induction l as [|x l IH]; simpl; [reflexivity|].
  destruct (f x); simpl; [destruct (g x)|]; now rewrite IH.
Qed.

(** C7: on the empty order list the statistics are all zero, and the
    percentage is the number 0, not NaN. *)
Theorem stats_empty :
  forall loadTime : Date,
    stats loadTime [] = mkStatistics 0 0 0%float 0
    /\ PrimFloat.is_nan (udonPercentage (stats loadTime [])) = false.
Proof. intros loadTime. split; reflexivity. Qed.

(** Without the guard the quotient of the two lengths would be NaN. *)
Lemma unguarded_percentage_is_nan :
  PrimFloat.is_nan (number 0 / number 0 * 100)%float = true.
Proof. reflexivity. Qed.

(** Scenario C of the specification, with the module loaded in March 2024. *)
Example stats_scenario_C :
  stats (mkDate "2024-03-21T09:00:00.000Z" "")
    [udonOrder "1" "2024-03-20"; riceOrder "2" "2024-03-18"; udonOrder "3" "2024-03-15"]
  = mkStatistics 3 2 (2 / 3 * 100)%float 2.
Proof. reflexivity. Qed.

(** C8 (as the code has it): [thisMonthCount] is the number of orders with
    udon whose date starts with [CURRENT_MONTH], the first seven characters
    of the ISO rendering of the clock read once, when the module is loaded;
    [stats] takes the orders and nothing else. *)
Theorem thisMonthCount_counts_load_month :
  forall (loadTime : Date) (orders : list CafeteriaOrder),
    thisMonthCount (stats loadTime orders)
    = countInPeriod (CURRENT_MONTH loadTime) orders
    /\ CURRENT_MONTH loadTime = String.substring 0 7 (toISOString loadTime).
Proof.
  intros loadTime os. split; [|reflexivity].
  unfold stats, countInPeriod. simpl. now rewrite filter_filter_and.
Qed.

(** C8 fails as stated: with the module loaded in November 2026, the count
    for the period "2024-03" of a store holding one udon order of March
    2024 is 1, and [thisMonthCount] is 0. *)
Lemma thisMonthCount_ignores_other_period :
  CURRENT_MONTH noon = "2026-11"
  /\ countInPeriod "2024-03" [udonOrder "1" "2024-03-20"] = 1
  /\ thisMonthCount (stats noon [udonOrder "1" "2024-03-20"]) = 0
  /\ thisMonthCount (stats noon [udonOrder "1" "2024-03-20"])
     <> countInPeriod "2024-03" [udonOrder "1" "2024-03-20"].
Proof. repeat split; try reflexivity. discriminate. Qed.

(** The second copy of the component counts the period "2024-03" whatever
    the clock says. *)
Lemma variant_thisMonthCount (orders : list CafeteriaOrder) :
  thisMonthCount (AppVariant.stats orders) = countInPeriod "2024-03" orders.
Proof.
  unfold AppVariant.stats, countInPeriod. simpl. now rewrite filter_filter_and.
Qed.

(** C10: the count of the current month is at most the udon count, which
    is at most the number of orders. *)
Theorem stats_counts_ordered :
  forall (loadTime : Date) (orders : list CafeteriaOrder),
    thisMonthCount (stats loadTime orders) <= udonCount (stats loadTime orders)
    /\ udonCount (stats loadTime orders) <= totalOrders (stats loadTime orders).
Proof.
  intros loadTime os. unfold stats. simpl.
  split; apply filter_length_bound.
Qed.

(** ** Objects, sorting and slicing *)

Section ObjectFacts.
Variable V : Type.
Implicit Types (o : JsObject V) (k : string).

Lemma obj_get_none o k : obj_get o k = None <-> ~ In k (map fst o).
Proof.
  induction o as [|[k0 v0] o IH]; simpl; [tauto|].
  destruct (String.eqb_spec k k0) as [->|Hne].
  - split; [discriminate | intros H; exfalso; apply H; now left].
  - rewrite IH. split; [intros H [E|E]; [congruence | contradiction] | tauto].
Qed.

Lemma obj_update_keys k (f : V -> V) o :
  map fst (obj_update k f o) = map fst o.
Proof.
  induction o as [|[k0 v0] o IH]; simpl; [reflexivity|].
  destruct (String.eqb k k0); simpl; [reflexivity | now rewrite IH].
Qed.

Lemma in_obj_update k (f : V -> V) o k' v' :
  NoDup (map fst o) ->
  In (k', v') (obj_update k f o) ->
  exists v, In (k', v) o /\ v' = if String.eqb k k' then f v else v.
Proof.
  induction o as [|[k0 v0] o IH]; simpl; intros Hnd Hin; [contradiction|].
  inversion Hnd as [|? ? Hnotin Hnd']; subst.
  destruct (String.eqb_spec k k0) as [->|Hne]; simpl in Hin.
  - destruct Hin as [E|Hin].
    + injection E as <- <-. exists v0. rewrite String.eqb_refl. now split; [left|].
    + exists v'. split; [now right|].
      destruct (String.eqb_spec k0 k') as [->|_]; [|reflexivity].
      exfalso. apply Hnotin. apply in_map_iff. now exists (k', v').
  - destruct Hin as [E|Hin].
    + injection E as <- <-. exists v0. split; [now left|].
      destruct (String.eqb_spec k k0); [contradiction | reflexivity].
    + destruct (IH Hnd' Hin) as (v & Hv & Heq). exists v. split; [now right | exact Heq].
Qed.

Lemma indexed_named_perm o :
  Permutation (map snd (indexed o) ++ map snd (named o)) (map snd o).
Proof.
  unfold indexed, named.
  induction o as [|[k0 v0] o IH]; simpl; [constructor|].
  destruct (arrayIndex k0); simpl.
  - now constructor.
  - apply Permutation_sym, Permutation_cons_app, Permutation_sym, IH.
Qed.
End ObjectFacts.

Section SortFacts.
Variable A : Type.
Variable before : A -> A -> bool.

Lemma insert_sorted_perm (x : A) (l : list A) :
  Permutation (insert_sorted before x l) (x :: l).
Proof.
  induction l as [|y l IH]; simpl; [reflexivity|].
  destruct (before x y); [reflexivity|].
  rewrite IH. apply perm_swap.
Qed.

Lemma Array_sort_perm (l : list A) : Permutation (Array_sort before l) l.
Proof.
  induction l as [|x l IH]; simpl; [constructor|].
  rewrite insert_sorted_perm. now constructor.
Qed.

Hypothesis before_total : forall a b, before a b = false -> before b a = true.
Hypothesis before_trans :
  forall a b c, before a b = true -> before b c = true -> before a c = true.

Lemma insert_sorted_sorted (x : A) (l : list A) :
  StronglySorted (fun a b => before a b = true) l ->
  StronglySorted (fun a b => before a b = true) (insert_sorted before x l).
Proof.
  induction l as [|y l IH]; simpl; intros Hs.
  - constructor; constructor.
  - inversion Hs as [|? ? Hs' Hall]; subst.
    destruct (before x y) eqn:Hxy.
    + constructor; [exact Hs|]. constructor; [exact Hxy|].
      rewrite Forall_forall in *. intros z Hz. exact (before_trans Hxy (Hall z Hz)).
    + constructor; [exact (IH Hs')|].
      rewrite Forall_forall in *. intros z Hz.
      apply (Permutation_in _ (insert_sorted_perm x l)) in Hz.
      destruct Hz as [<-|Hz]; [now apply before_total | exact (Hall z Hz)].
Qed.

Lemma Array_sort_sorted (l : list A) :
  StronglySorted (fun a b => before a b = true) (Array_sort before l).
Proof.
  induction l as [|x l IH]; simpl; [constructor | now apply insert_sorted_sorted].
Qed.
End SortFacts.

Section SliceFacts.
Variable A : Type.

Lemma slice_last_length (n : nat) (l : list A) :
  List.length (slice_last n l) = Nat.min n (List.length l).
Proof. unfold slice_last. rewrite length_skipn. lia. Qed.

Lemma slice_last_cut (n : nat) (l : list A) :
  l = (firstn (List.length l - n) l ++ slice_last n l)%list.
Proof. unfold slice_last. symmetry. apply firstn_skipn. Qed.

Lemma slice_last_all (n : nat) (l : list A) :
  List.length l <= n -> slice_last n l = l.
Proof.
  intros H. unfold slice_last.
  replace (List.length l - n) with 0 by lia. reflexivity.
Qed.

Lemma StronglySorted_app (R : A -> A -> Prop) (l1 l2 : list A) :
  StronglySorted R (l1 ++ l2) ->
  StronglySorted R l2 /\ forall a b, In a l1 -> In b l2 -> R a b.
Proof.
  induction l1 as [|x l1 IH]; simpl; intros Hs.
  - split; [exact Hs | contradiction].
  - inversion Hs as [|? ? Hs' Hall]; subst.
    destruct (IH Hs') as [H2 Hcross]. split; [exact H2|].
    intros a b [<-|Ha] Hb; [|now apply Hcross].
    rewrite Forall_forall in Hall. apply Hall. apply in_or_app. now right.
Qed.
End SliceFacts.

(** ** Comparison by code units is a consistent comparator *)

Lemma ascii_compare_refl (c : ascii) : Ascii.compare c c = Eq.
Proof. unfold Ascii.compare. apply N.compare_refl. Qed.

Lemma string_compare_trans (a b c : string) :
  String.compare a b <> Gt -> String.compare b c <> Gt -> String.compare a c <> Gt.
Proof.
  revert b c. induction a as [|x a IH]; intros [|y b] [|z c]; simpl;
    try congruence.
  destruct (Ascii.compare x y) eqn:Exy; try congruence;
    destruct (Ascii.compare y z) eqn:Eyz; try congruence.
  - apply Ascii.compare_eq_iff in Exy, Eyz. subst. rewrite ascii_compare_refl.
    apply IH.
  - apply Ascii.compare_eq_iff in Exy. subst. rewrite Eyz. congruence.
  - apply Ascii.compare_eq_iff in Eyz. subst. rewrite Exy. congruence.
  - unfold Ascii.compare in *. rewrite N.compare_lt_iff in Exy, Eyz.
    assert (H : (N_of_ascii x < N_of_ascii z)%N) by lia.
    apply N.compare_lt_iff in H. rewrite H. congruence.
Qed.

Lemma codeUnitCompare_le (a b : string) :
  (codeUnitCompare a b <= 0)%Z <-> String.compare a b <> Gt.
Proof.
  unfold codeUnitCompare. destruct (String.compare a b); split; intros H;
    try lia; try congruence.
Qed.

Lemma codeUnitCompare_total (a b : string) :
  (codeUnitCompare a b <= 0)%Z \/ (codeUnitCompare b a <= 0)%Z.
Proof.
  rewrite !codeUnitCompare_le. rewrite (String.compare_antisym a b).
  destruct (String.compare b a); simpl; [left | right | left]; congruence.
Qed.

Lemma codeUnitCompare_trans (a b c : string) :
  (codeUnitCompare a b <= 0)%Z -> (codeUnitCompare b c <= 0)%Z ->
  (codeUnitCompare a c <= 0)%Z.
Proof. rewrite !codeUnitCompare_le. apply string_compare_trans. Qed.

(* ================================================================== *)
(** * Part III: further properties of the code *)
(* ================================================================== *)

(** ** Statistics and the store *)

Lemma filter_length_perm (A : Type) (f : A -> bool) (l l' : list A) :
  Permutation l l' -> List.length (filter f l) = List.length (filter f l').
Proof.
  induction 1 as [|x l l' _ IH|x y l|l l' l'' _ IH1 _ IH2]; simpl.
  - reflexivity.
  - destruct (f x); simpl; now rewrite IH.
  - destruct (f x), (f y); reflexivity.
  - now rewrite IH1.
Qed.

(** X1: the statistics depend on which orders are in the store, not on the
    order in which they are held. *)
Theorem stats_order_independent :
  forall (loadTime : Date) (os os' : list CafeteriaOrder),
    Permutation os os' -> stats loadTime os = stats loadTime os'.
Proof.
  intros loadTime os os' Hperm. unfold stats.
  rewrite (Permutation_length Hperm).
  rewrite (filter_length_perm hasUdon Hperm).
  rewrite !filter_filter_and.
  rewrite (filter_length_perm _ Hperm).
  reflexivity.
Qed.

Lemma stats_order_independent_witness :
  stats noon storeSample = stats noon (rev storeSample).
Proof.
  apply stats_order_independent. apply Permutation_rev.
Defined.

(** X2: merging a polled order adds one to [totalOrders], one to
    [udonCount] when the order has udon, and one to [thisMonthCount] when
    it has udon and its date starts with [CURRENT_MONTH]; no counter ever
    goes down, and a poll whose extraction was rejected leaves the
    statistics as they were. *)
Theorem stats_after_poll_merge :
  forall (loadTime : Date) (o : CafeteriaOrder) (s : AppState),
    totalOrders (stats loadTime (orders (poll_merge (Returned o) s)))
    = totalOrders (stats loadTime (orders s)) + 1
    /\ udonCount (stats loadTime (orders (poll_merge (Returned o) s)))
       = udonCount (stats loadTime (orders s)) + (if hasUdon o then 1 else 0)
    /\ thisMonthCount (stats loadTime (orders (poll_merge (Returned o) s)))
       = thisMonthCount (stats loadTime (orders s))
         + (if hasUdon o && startsWith (date o) (CURRENT_MONTH loadTime)
            then 1 else 0)
    /\ (forall e, stats loadTime (orders (poll_merge (Raised e) s))
                  = stats loadTime (orders s)).
Proof.
  intros loadTime o s. unfold poll_merge, append, stats. simpl.
  split; [lia|]. split; [|split; [|reflexivity]].
  - destruct (hasUdon o); simpl; lia.
  - destruct (hasUdon o); simpl; [|lia].
    destruct (startsWith (date o) (CURRENT_MONTH loadTime)); simpl; lia.
Qed.

(** ** Scheduler *)




(** X5: a manual sync and a firing of the polling timer do not disturb
    each other's writes.  Whether the timer fires during the delay of the
    manual sync or after it, the store ends up as the timer alone would
    leave it and [isSyncing] ends false; only [lastSyncTime] differs, being
    the clock of whichever wrote last. *)
Theorem manual_sync_and_poll_interleave :
  forall (now checked : Date)
         (arrival : option (string * Date * bool * Outcome ParsedEmail))
         (s : AppState),
    orders (handleManualSync_resume now (poll checked arrival (handleManualSync_begin s)))
    = orders (poll checked arrival s)
    /\ orders (poll checked arrival (handleManualSync now s))
       = orders (poll checked arrival s)
    /\ isSyncing (handleManualSync_resume now
                    (poll checked arrival (handleManualSync_begin s))) = false
    /\ isSyncing (poll checked arrival (handleManualSync now s)) = false
    /\ lastSyncTime (handleManualSync_resume now
                       (poll checked arrival (handleManualSync_begin s))) = now
    /\ lastSyncTime (poll checked arrival (handleManualSync now s)) = checked.
Proof.
  intros now checked arrival s.
  destruct arrival as [[[[rid at_] coin] [parsed|e]]|]; repeat split.
Qed.

(** ** Order builder *)

Lemma split_head_app (sep : ascii) (a b : string) :
  occurs sep a = false -> split_head sep (a ++ String sep b) = a.
Proof.
  induction a as [|c a IH]; simpl.
  - intros _. now rewrite Ascii.eqb_refl.
  - intros H. apply orb_false_iff in H. destruct H as [Hc Ha].
    rewrite Hc. f_equal. now apply IH.
Qed.

Lemma split_head_whole (sep : ascii) (s : string) :
  occurs sep s = false -> split_head sep s = s.
Proof.
  induction s as [|c s IH]; simpl; [reflexivity|].
  intros H. apply orb_false_iff in H. destruct H as [Hc Hs].
  rewrite Hc. f_equal. now apply IH.
Qed.

Lemma occurs_app (c : ascii) (a b : string) :
  occurs c (a ++ b) = occurs c a || occurs c b.
Proof.
  induction a as [|x a IH]; simpl; [reflexivity|].
  rewrite IH. now rewrite orb_assoc.
Qed.

Lemma string_app_assoc (a b c : string) : (a ++ b) ++ c = a ++ (b ++ c).
Proof. induction a as [|x a IH]; simpl; [reflexivity | now rewrite IH]. Qed.

Lemma prefix_app (p x : string) : String.prefix p (p ++ x) = true.
Proof.
  induction p as [|c p IH]; simpl; [now destruct x|].
  destruct (ascii_dec c c); [exact IH | contradiction].
Qed.

(** X6: when the extraction gives no date, the order takes the day part
    of the message's own time stamp: for a message date made of a part
    free of spaces, a space and the rest, the order's date is that first
    part; for a message date without any space it is the whole of it. *)
Theorem processEmail_fallback_day :
  forall (email : Email.t) (its : list OrderItem) (day rest : string),
    occurs " " day = false ->
    (Email.date email = day ++ String " " rest \/ Email.date email = day) ->
    exists o,
      processEmail email (Returned (mkParsed its "")) = Returned o
      /\ date o = day.
Proof.
  intros email its day rest Hday Hdate. eexists. split; [reflexivity|]. simpl.
  destruct Hdate as [-> | ->]; [now apply split_head_app | now apply split_head_whole].
Qed.

Lemma processEmail_fallback_day_witness :
  exists o,
    processEmail (Email.mk "2" "" "2024-03-18 11:30" "") (Returned (mkParsed [] ""))
      = Returned o
    /\ date o = "2024-03-18".
Proof.
  apply (@processEmail_fallback_day (Email.mk "2" "" "2024-03-18 11:30" "") []
           "2024-03-18" "11:30").
  - reflexivity.
  - left. reflexivity.
Defined.

Lemma mock_fallback_in_month (loadTime : Date) (its : list OrderItem) (tail time : string) :
  occurs " " (CURRENT_MONTH loadTime) = false ->
  occurs " " tail = false ->
  startsWith
    (or_else "" (split_head " " (CURRENT_MONTH loadTime ++ tail ++ String " " time)))
    (CURRENT_MONTH loadTime) = true.
Proof.
  intros Hm Ht. simpl. rewrite <- string_app_assoc.
  rewrite split_head_app by (rewrite occurs_app, Hm, Ht; reflexivity).
  apply prefix_app.
Qed.

Lemma all_in_month (cm : string) (os : list CafeteriaOrder) :
  Forall (fun o => startsWith (date o) cm = true) os ->
  filter (fun o => startsWith (date o) cm) (filter hasUdon os) = filter hasUdon os.
Proof.
  induction 1 as [|o os Ho _ IH]; simpl; [reflexivity|].
  destruct (hasUdon o); simpl; [rewrite Ho, IH; reflexivity | exact IH].
Qed.

Lemma mock_dates_in_month (loadTime : Date) :
  Forall (fun email => exists tail time,
              occurs " " tail = false
              /\ Email.date email = CURRENT_MONTH loadTime ++ tail ++ String " " time)
         (MOCK_EMAILS loadTime).
Proof.
  repeat constructor.
  - exists "-20", "12:00". split; reflexivity.
  - exists "-18", "11:30". split; reflexivity.
  - exists "-15", "12:15". split; reflexivity.
Qed.

Lemma built_in_month (loadTime : Date) (gemini : Email.t -> Outcome ParsedEmail)
    (emails : list Email.t) (rs : list CafeteriaOrder) :
  occurs " " (CURRENT_MONTH loadTime) = false ->
  Forall (fun email => exists tail time,
              occurs " " tail = false
              /\ Email.date email = CURRENT_MONTH loadTime ++ tail ++ String " " time)
         emails ->
  (forall email, In email emails -> exists its, gemini email = Returned (mkParsed its "")) ->
  Forall2 (fun email o => processEmail email (gemini email) = Returned o) emails rs ->
  Forall (fun o => startsWith (date o) (CURRENT_MONTH loadTime) = true) rs.
Proof.
  intros Hm Hshape Hall Hf2.
  induction Hf2 as [|email o emails rs Ho _ IH]; [constructor|].
  inversion Hshape as [|? ? (tail & time & Htail & Hdate) Hshape']; subst.
  constructor.
  - destruct (Hall email (or_introl eq_refl)) as [its Hg].
    rewrite Hg in Ho. simpl in Ho. injection Ho as <-. simpl. rewrite Hdate.
    exact (mock_fallback_in_month loadTime its tail time Hm Htail).
  - apply IH; [exact Hshape'|]. intros e He. apply Hall. now right.
Qed.

(** X7: the dates of the mock messages are built from [CURRENT_MONTH], so
    when the extraction returns items but no date for any of them, the
    three orders of the initial load fall back to days of the current
    month: every udon order among them counts in [thisMonthCount]. *)
Theorem mock_orders_fall_in_current_month :
  forall (loadTime : Date) (gemini : Email.t -> Outcome ParsedEmail) (s : AppState),
    occurs " " (CURRENT_MONTH loadTime) = false ->
    (forall email, In email (MOCK_EMAILS loadTime) ->
                   exists its, gemini email = Returned (mkParsed its "")) ->
    totalOrders (stats loadTime (orders (init (MOCK_EMAILS loadTime) gemini s))) = 3
    /\ Forall (fun o => startsWith (date o) (CURRENT_MONTH loadTime) = true)
              (orders (init (MOCK_EMAILS loadTime) gemini s))
    /\ thisMonthCount (stats loadTime (orders (init (MOCK_EMAILS loadTime) gemini s)))
       = udonCount (stats loadTime (orders (init (MOCK_EMAILS loadTime) gemini s))).
Proof.
  intros loadTime gemini s Hm Hall.
  assert (Hret : forall email, In email (MOCK_EMAILS loadTime) ->
                   exists parsed, gemini email = Returned parsed).
  { intros email Hin. destruct (Hall email Hin) as [its H]. eauto. }
  destruct (init_results_returned (MOCK_EMAILS loadTime) gemini Hret)
    as (rs & Hrs & Hf2).
  assert (Horders : orders (init (MOCK_EMAILS loadTime) gemini s) = rs).
  { unfold init, init_settle. rewrite Hrs. reflexivity. }
  rewrite Horders.
  assert (Hdates : Forall (fun o => startsWith (date o) (CURRENT_MONTH loadTime) = true) rs).
  { eapply built_in_month; [exact Hm | apply mock_dates_in_month | exact Hall | exact Hf2]. }
  split; [|split; [exact Hdates|]].
  - apply Forall2_length in Hf2. unfold stats. simpl. rewrite <- Hf2. reflexivity.
  - unfold stats. simpl. now rewrite (@all_in_month _ _ Hdates).
Qed.

Lemma mock_orders_fall_in_current_month_witness :
  thisMonthCount (stats noon (orders (init (MOCK_EMAILS noon) undatedUdon (initialState noon))))
  = 3.
Proof.
  destruct (@mock_orders_fall_in_current_month noon undatedUdon (initialState noon))
    as (_ & _ & H).
  - reflexivity.
  - intros email _. eexists. reflexivity.
  - rewrite H. reflexivity.
Defined.

(** X9: on a reply of the shape the request's schema asks for, the
    untyped evaluation reads what the typed embedding reads: the date is
    the string of the reply and [parsed.items.some(item => item.isUdon)]
    is true exactly when one of the typed items has [isUdon] true. *)
Theorem declared_shape_reads_alike :
  forall (v : JSON) (parsed : ParsedEmail),
    asParsedEmail v = Some parsed ->
    parsed_items_some v = Returned (existsb isUdon (p_items parsed))
    /\ member v "date" = Returned (Some (JString (p_date parsed))).
Proof.
  intros v parsed H. split; [exact (parsed_items_some_typed v H)|].
  unfold asParsedEmail in H.
  destruct v as [| | | | |ps]; try discriminate. simpl.
  destruct (property "date" ps) as [[| | |d| |]|]; try discriminate.
  destruct (property "items" ps) as [[| | | |vs|]|]; try discriminate.
  destruct (asOrderItems vs); [|discriminate].
  now injection H as <-.
Qed.

Lemma declared_shape_reads_alike_witness :
  parsed_items_some kitsuneReply = Returned true
  /\ member kitsuneReply "date" = Returned (Some (JString "2024-03-20")).
Proof.
  exact (@declared_shape_reads_alike kitsuneReply kitsune eq_refl).
Defined.

(** X15: the two copies of [processEmail] raise on the same extractions
    and otherwise build orders that agree in every field but the date: the
    second copy takes the extracted date as it is, so the orders are equal
    when the extracted date is not empty, and the second copy's date is
    empty whenever the extracted one is. *)
Theorem variant_processEmail_differs_in_date :
  forall (email : Email.t),
    (forall e, AppVariant.processEmail email (Raised e) = Raised e
               /\ processEmail email (Raised e) = Raised e)
    /\ (forall parsed,
          exists o o',
            processEmail email (Returned parsed) = Returned o
            /\ AppVariant.processEmail email (Returned parsed) = Returned o'
            /\ id o' = id o /\ sender o' = sender o /\ subject o' = subject o
            /\ items o' = items o /\ fullText o' = fullText o
            /\ hasUdon o' = hasUdon o
            /\ date o' = p_date parsed
            /\ (p_date parsed <> "" -> o' = o)).
Proof.
  intros email. split; [intros e; split; reflexivity|].
  intros parsed. do 2 eexists. split; [reflexivity|]. split; [reflexivity|].
  simpl. repeat split.
  intros Hd. now rewrite (or_else_nonempty _ Hd).
Qed.

Lemma variant_processEmail_differs_in_date_witness :
  AppVariant.processEmail (Email.mk "1" "" "2024-03-20 12:00" "") (Returned kitsune)
  = processEmail (Email.mk "1" "" "2024-03-20 12:00" "") (Returned kitsune).
Proof.
  destruct (variant_processEmail_differs_in_date
              (Email.mk "1" "" "2024-03-20 12:00" "")) as [_ H].
  destruct (H kitsune) as (o & o' & Ho & Ho' & _ & _ & _ & _ & _ & _ & _ & Heq).
  rewrite Ho, Ho'. f_equal. apply Heq. discriminate.
Defined.

(** The statistics of the second copy agree with those of the first
    on the three counters that do not look at dates, and on all four when
    the module of the first is loaded in March 2024. *)
Theorem variant_stats_agree_in_march_2024 :
  forall (loadTime : Date) (os : list CafeteriaOrder),
    totalOrders (AppVariant.stats os) = totalOrders (stats loadTime os)
    /\ udonCount (AppVariant.stats os) = udonCount (stats loadTime os)
    /\ udonPercentage (AppVariant.stats os) = udonPercentage (stats loadTime os)
    /\ (CURRENT_MONTH loadTime = "2024-03" -> AppVariant.stats os = stats loadTime os).
Proof.
  intros loadTime os. repeat split.
  intros Hm. unfold AppVariant.stats, stats. now rewrite Hm.
Qed.

Lemma variant_stats_agree_in_march_2024_witness :
  AppVariant.stats chartSample = stats marchLoad chartSample.
Proof.
  destruct (variant_stats_agree_in_march_2024 marchLoad chartSample)
    as (_ & _ & _ & H).
  apply H. reflexivity.
Defined.




(** ** What is rendered *)

Lemma init_outcome_facts (emails : list Email.t)
    (gemini : Email.t -> Outcome ParsedEmail) (s : AppState) :
  isSyncing (init emails gemini s) = false
  /\ ((forall email, In email emails -> exists parsed, gemini email = Returned parsed) ->
      Forall2 (fun email o => processEmail email (gemini email) = Returned o)
              emails (orders (init emails gemini s)))
  /\ ((exists email e, In email emails /\ gemini email = Raised e) ->
      orders (init emails gemini s) = orders s).
Proof.
  unfold init, init_settle. split; [reflexivity|]. split.
  - intros Hall. now destruct (init_results_returned emails gemini Hall) as (rs & -> & Hf2).
  - intros Hex. now destruct (init_results_raised emails gemini Hex) as [e ->].
Qed.


Lemma variantIdleStep_keeps_syncing (s s' : AppState) :
  variantIdleStep s s' -> isSyncing s = true -> isSyncing s' = true.
Proof.
  intros Hstep Hsync.
  destruct Hstep as [s checked arrival | s v | s].
  - destruct arrival as [[[[rid at_] coin] [parsed|e]]|]; exact Hsync.
  - exact Hsync.
  - unfold clickSync, syncDisabled. now rewrite Hsync.
Qed.

Lemma variantLater_keeps_syncing (s s' : AppState) :
  variantLater s s' -> isSyncing s = true -> isSyncing s' = true.
Proof.
  induction 1 as [s | s s1 s2 _ IH Hstep]; intros Hsync; [exact Hsync|].
  exact (variantIdleStep_keeps_syncing Hstep (IH Hsync)).
Qed.

Lemma variant_init_raised (emails : list Email.t)
    (gemini : Email.t -> Outcome ParsedEmail) (s : AppState) :
  (exists email e, In email emails /\ gemini email = Raised e) ->
  AppVariant.init emails gemini s = setIsSyncing true s.
Proof.
  intros (email & e & Hin & He). unfold AppVariant.init.
  assert (Hex : exists e0, In (@Raised CafeteriaOrder e0)
                  (map (fun email => AppVariant.processEmail email (gemini email)) emails)).
  { exists e. apply in_map_iff. exists email. split; [now rewrite He | exact Hin]. }
  apply Promise_all_raised in Hex. now destruct Hex as [e0 ->].
Qed.

(** X18: in the second copy of the component a rejected extraction during
    the initial load disables the sync button for good.  The load leaves
    [isSyncing] true, and nothing that can happen afterwards - the timer
    firing, auto-sync being toggled, a click on the disabled button -
    lowers it again. *)
Theorem variant_sync_button_stays_disabled :
  forall (emails : list Email.t) (gemini : Email.t -> Outcome ParsedEmail)
         (s s' : AppState),
    (exists email e, In email emails /\ gemini email = Raised e) ->
    variantLater (AppVariant.init emails gemini s) s' ->
    isSyncing s' = true /\ syncDisabled s' = true /\ clickSync s' = s'.
Proof.
  intros emails gemini s s' Hex Hlater.
  assert (Hsync : isSyncing s' = true).
  { apply (variantLater_keeps_syncing Hlater).
    now rewrite (@variant_init_raised emails gemini s Hex). }
  unfold clickSync, syncDisabled. rewrite Hsync. repeat split.
Qed.

Lemma variant_sync_button_stays_disabled_witness :
  syncDisabled
    (clickSync
       (variantPoll noon (Some ("k3x9", noon, true, Returned kitsune))
          (AppVariant.init AppVariant.MOCK_EMAILS failsOnSecond (initialState noon))))
  = true.
Proof.
  eapply (@variant_sync_button_stays_disabled AppVariant.MOCK_EMAILS failsOnSecond
            (initialState noon)).
  - exists (nth 1 AppVariant.MOCK_EMAILS (Email.mk "" "" "" "")), (ServiceError "timeout").
    split; [simpl; tauto | reflexivity].
  - eapply vlater_step; [eapply vlater_step; [apply vlater_now|]|].
    + apply vstep_poll with (checked := noon)
                            (arrival := Some ("k3x9", noon, true, Returned kitsune)).
    + apply vstep_click.
Defined.

(** ** From a malformed reply to the statistics *)

(** X19: what a reply that is no JSON becomes.  The adapter's fallback has
    the declared shape, with no items and today's date; the order built
    from it has no items and no udon and is dated with the day part of the
    clock's ISO rendering; merged into the store it adds one to
    [totalOrders] and leaves [udonCount] and [thisMonthCount] as they
    were. *)
Theorem malformed_reply_becomes_plain_order :
  forall (now loadTime : Date) (email : Email.t) (s : AppState) (day rest : string),
    toISOString now = day ++ String "T" rest ->
    occurs "T" day = false ->
    day <> "" ->
    exists v parsed o,
      parseEmailContent now (Fulfilled Malformed) = Returned v
      /\ asParsedEmail v = Some parsed
      /\ processEmail email (Returned parsed) = Returned o
      /\ items o = [] /\ hasUdon o = false /\ date o = day
      /\ totalOrders (stats loadTime (orders (poll_merge (Returned o) s)))
         = totalOrders (stats loadTime (orders s)) + 1
      /\ udonCount (stats loadTime (orders (poll_merge (Returned o) s)))
         = udonCount (stats loadTime (orders s))
      /\ thisMonthCount (stats loadTime (orders (poll_merge (Returned o) s)))
         = thisMonthCount (stats loadTime (orders s)).
Proof.
  intros now loadTime email s day rest Hiso Hday Hne.
  assert (Hd : isoDay now = day).
  { unfold isoDay. rewrite Hiso. now apply split_head_app. }
  do 3 eexists. split; [reflexivity|]. split; [reflexivity|]. split; [reflexivity|].
  simpl. rewrite Hd, (or_else_nonempty _ Hne).
  repeat split. lia.
Qed.

Lemma malformed_reply_becomes_plain_order_witness :
  exists v parsed o,
    parseEmailContent noon (Fulfilled Malformed) = Returned v
    /\ asParsedEmail v = Some parsed
    /\ processEmail (newEmail "k3x9" noon true) (Returned parsed) = Returned o
    /\ date o = "2026-11-02" /\ hasUdon o = false.
Proof.
  destruct (@malformed_reply_becomes_plain_order noon noon (newEmail "k3x9" noon true)
              (initialState noon) "2026-11-02" "03:00:00.000Z")
    as (v & parsed & o & Hv & Hp & Ho & _ & Hu & Hd & _).
  - reflexivity.
  - reflexivity.
  - discriminate.
  - exists v, parsed, o. repeat split; assumption.
Defined.

(* ================================================================== *)
(** * Part IV: the chart series *)
(* ================================================================== *)

(** ** Dates that name a member of Object.prototype *)

Lemma obj_get_app_new (V : Type) (o : JsObject V) (k : string) (v : V) :
  obj_get o k = None -> obj_get (o ++ [(k, v)])%list k = Some v.
Proof.
  induction o as [|[k0 v0] o IH]; simpl.
  - intros _. now rewrite String.eqb_refl.
  - destruct (String.eqb k k0); [discriminate | exact IH].
Qed.

Lemma charted_all (os : list CafeteriaOrder) :
  (forall o, In o os -> inherited (date o) = false) -> charted os = os.
Proof.
  unfold charted. induction os as [|o os IH]; simpl; intros H; [reflexivity|].
  rewrite (H o (or_introl eq_refl)). simpl. f_equal. apply IH.
  intros o' Ho'. apply H. now right.
Qed.

Lemma charted_dates (os : list CafeteriaOrder) (o : CafeteriaOrder) :
  In o (charted os) -> In o os /\ inherited (date o) = false.
Proof.
  unfold charted. rewrite filter_In. intros [Hin Hd]. split; [exact Hin|].
  now destruct (inherited (date o)).
Qed.

Lemma charted_nil_iff (os : list CafeteriaOrder) :
  charted os = [] <-> forall o, In o os -> inherited (date o) = true.
Proof.
  unfold charted. induction os as [|o os IH]; simpl.
  - split; [intros _ o [] | reflexivity].
  - destruct (inherited (date o)) eqn:Hd; simpl.
    + rewrite IH. split.
      * intros H o' [<-|Ho']; [exact Hd | now apply H].
      * intros H o' Ho'. apply H. now right.
    + split; [discriminate|]. intros H.
      specialize (H o (or_introl eq_refl)). congruence.
Qed.

Lemma ordersOn_charted (k : string) (u : bool) (os : list CafeteriaOrder) :
  inherited k = false -> ordersOn k u (charted os) = ordersOn k u os.
Proof.
  intros Hk. unfold ordersOn, charted.
  induction os as [|o os IH]; simpl; [reflexivity|].
  destruct (String.eqb (date o) k) eqn:E; simpl.
  - apply String.eqb_eq in E. rewrite E at 1. rewrite Hk. simpl.
    apply String.eqb_eq in E. rewrite E. simpl.
    destruct (Bool.eqb (hasUdon o) u); now rewrite IH.
  - destruct (inherited (date o)); simpl; [exact IH|].
    rewrite E. simpl. exact IH.
Qed.

Lemma filter_charted_bound (f : CafeteriaOrder -> bool) (os : list CafeteriaOrder) :
  List.length (filter f (charted os)) <= List.length (filter f os).
Proof.
  unfold charted. induction os as [|o os IH]; simpl; [lia|].
  destruct (inherited (date o)); simpl; destruct (f o); simpl; lia.
Qed.

(** An order whose date names an inherited member leaves [groups] as it
    was. *)
Lemma tally_inherited (g : JsObject Bucket.t) (o : CafeteriaOrder) :
  inherited (date o) = true -> obj_get g (date o) = None -> tally g o = g.
Proof.
  intros Hd Hget. unfold tally, plain_get. cbv zeta.
  repeat (rewrite ?Hget, ?Hd; simpl). reflexivity.
Qed.

Lemma tally_own (g : JsObject Bucket.t) (o : CafeteriaOrder) :
  inherited (date o) = false -> tally g o = tallyOwn g o.
Proof.
  intros Hd. unfold tally, tallyOwn, plain_get. cbv zeta.
  destruct (obj_get g (date o)) as [b|] eqn:Hget; simpl.
  - now rewrite Hget.
  - rewrite Hd. simpl. unfold obj_set. rewrite Hget.
    now rewrite obj_get_app_new by exact Hget.
Qed.

Lemma variant_tally_inherited (g : JsObject AppVariant.Bucket.t) (o : CafeteriaOrder) :
  inherited (date o) = true -> obj_get g (date o) = None -> AppVariant.tally g o = g.
Proof.
  intros Hd Hget. unfold AppVariant.tally, plain_get. cbv zeta.
  repeat (rewrite ?Hget, ?Hd; simpl). reflexivity.
Qed.

Lemma variant_tally_own (g : JsObject AppVariant.Bucket.t) (o : CafeteriaOrder) :
  inherited (date o) = false -> AppVariant.tally g o = variantTallyOwn g o.
Proof.
  intros Hd. unfold AppVariant.tally, variantTallyOwn, plain_get. cbv zeta.
  destruct (obj_get g (date o)) as [b|] eqn:Hget; simpl.
  - now rewrite Hget.
  - rewrite Hd. simpl. unfold obj_set. rewrite Hget.
    now rewrite obj_get_app_new by exact Hget.
Qed.

Lemma ensured_keys (V : Type) (g : JsObject V) (d : string) (v : V) (k : string) :
  In k (map fst (match obj_get g d with
                 | Some _ => g
                 | None => obj_set d v g
                 end)) ->
  In k (map fst g) \/ k = d.
Proof.
  destruct (obj_get g d) eqn:Hget; [now left|].
  unfold obj_set. rewrite Hget, map_app, in_app_iff. simpl.
  intros [H|[H|[]]]; [now left | now right].
Qed.

Lemma tallyOwn_keys (g : JsObject Bucket.t) (o : CafeteriaOrder) (k : string) :
  In k (map fst (tallyOwn g o)) -> In k (map fst g) \/ k = date o.
Proof.
  unfold tallyOwn. cbv zeta.
  destruct (hasUdon o); rewrite obj_update_keys; apply ensured_keys.
Qed.

Lemma variantTallyOwn_keys (g : JsObject AppVariant.Bucket.t) (o : CafeteriaOrder)
    (k : string) :
  In k (map fst (variantTallyOwn g o)) -> In k (map fst g) \/ k = date o.
Proof.
  unfold variantTallyOwn. cbv zeta.
  destruct (hasUdon o); rewrite !obj_update_keys; apply ensured_keys.
Qed.

(** A loop that leaves the object alone for dates naming inherited members
    is the loop over the other orders. *)
Section SkipInherited.
Variable V : Type.
Variables visit visitOwn : JsObject V -> CafeteriaOrder -> JsObject V.

Hypothesis visit_inherited :
  forall g o, inherited (date o) = true -> obj_get g (date o) = None -> visit g o = g.
Hypothesis visit_own :
  forall g o, inherited (date o) = false -> visit g o = visitOwn g o.
Hypothesis visitOwn_keys :
  forall g o k, In k (map fst (visitOwn g o)) -> In k (map fst g) \/ k = date o.

Lemma fold_skips_inherited (os : list CafeteriaOrder) (g : JsObject V) :
  (forall k, In k (map fst g) -> inherited k = false) ->
  fold_left visit os g = fold_left visitOwn (charted os) g.
Proof.
  revert g. induction os as [|o os IH]; intros g Hg; simpl; [reflexivity|].
  destruct (inherited (date o)) eqn:Hd; simpl.
  - rewrite visit_inherited; [now apply IH | exact Hd|].
    apply obj_get_none. intros Hin. specialize (Hg _ Hin). congruence.
  - rewrite (visit_own g o Hd). apply IH.
    intros k Hk. destruct (visitOwn_keys g o k Hk) as [H| ->]; [now apply Hg | exact Hd].
Qed.
End SkipInherited.

Lemma groupsOf_charted (os : list CafeteriaOrder) :
  groupsOf os = fold_left tallyOwn (charted os) [].
Proof.
  unfold groupsOf.
  apply fold_skips_inherited;
    [exact tally_inherited | exact tally_own | exact tallyOwn_keys | intros k []].
Qed.

Lemma variant_groups_charted (os : list CafeteriaOrder) :
  fold_left AppVariant.tally os [] = fold_left variantTallyOwn (charted os) [].
Proof.
  apply fold_skips_inherited;
    [exact variant_tally_inherited | exact variant_tally_own
     | exact variantTallyOwn_keys | intros k []].
Qed.

(** ** Grouping *)

Lemma ordersOn_snoc (k : string) (u : bool) (seen : list CafeteriaOrder)
    (o : CafeteriaOrder) :
  List.length (ordersOn k u (seen ++ [o]))
  = List.length (ordersOn k u seen)
    + (if String.eqb (date o) k && Bool.eqb (hasUdon o) u then 1 else 0).
Proof.
  unfold ordersOn. rewrite filter_app, length_app. simpl.
  destruct (String.eqb (date o) k && Bool.eqb (hasUdon o) u); reflexivity.
Qed.

Lemma ordersOn_unseen (k : string) (u : bool) (seen : list CafeteriaOrder) :
  ~ In k (map date seen) -> ordersOn k u seen = [].
Proof.
  unfold ordersOn. induction seen as [|o seen IH]; simpl; intros H; [reflexivity|].
  destruct (String.eqb_spec (date o) k) as [E|_]; simpl.
  - exfalso. apply H. now left.
  - apply IH. tauto.
Qed.

Lemma tallied_nil : tallied [] [].
Proof.
  unfold tallied. simpl. split; [constructor|]. split; intros; contradiction.
Qed.

(** The bucket of the order's date exists after the first statement of the
    callback, and nothing else has changed. *)
Lemma tallied_ensure (groups : JsObject Bucket.t) (seen : list CafeteriaOrder)
    (d : string) :
  tallied groups seen ->
  let groups' := match obj_get groups d with
                 | Some _ => groups
                 | None => obj_set d (Bucket.mk d 0 0) groups
                 end in
  NoDup (map fst groups')
  /\ In d (map fst groups')
  /\ (forall k, In k (map fst groups) -> In k (map fst groups'))
  /\ (forall k b, In (k, b) groups' ->
        Bucket.date b = k
        /\ (In k (map date seen) \/ k = d)
        /\ Bucket.udon b = List.length (ordersOn k true seen)
        /\ Bucket.others b = List.length (ordersOn k false seen)).
Proof.
  intros (Hnd & Hbuckets & Hseen). cbv zeta.
  destruct (obj_get groups d) as [b0|] eqn:Hget.
  - assert (Hin : In d (map fst groups)).
    { destruct (in_dec string_dec d (map fst groups)) as [H|H]; [exact H|].
      apply obj_get_none in H. congruence. }
    repeat split; auto; destruct (Hbuckets k b H) as (? & ? & ? & ?); auto.
  - unfold obj_set. rewrite Hget. apply obj_get_none in Hget.
    assert (Hunseen : ~ In d (map date seen)).
    { intros H. apply in_map_iff in H. destruct H as (o & <- & Ho).
      apply Hget, Hseen, Ho. }
    rewrite map_app. simpl. split; [|split; [|split]].
    + apply NoDup_app_remove_l with (l := []). simpl.
      apply Permutation_NoDup with (l := d :: map fst groups).
      * apply Permutation_cons_append.
      * now constructor.
    + apply in_or_app. right. now left.
    + intros k Hk. apply in_or_app. now left.
    + intros k b Hin. apply in_app_or in Hin. destruct Hin as [Hin|[E|[]]].
      * destruct (Hbuckets k b Hin) as (? & ? & ? & ?). auto.
      * injection E as <- <-. simpl.
        rewrite (@ordersOn_unseen d true seen Hunseen).
        rewrite (@ordersOn_unseen d false seen Hunseen).
        auto.
Qed.

Lemma tallied_step (groups : JsObject Bucket.t) (seen : list CafeteriaOrder)
    (o : CafeteriaOrder) :
  tallied groups seen -> tallied (tallyOwn groups o) (seen ++ [o]).
Proof.
  intros Ht. pose proof (tallied_ensure (date o) Ht) as He. cbv zeta in He.
  destruct Ht as (_ & _ & Hseen).
  unfold tallyOwn.
  set (groups' := match obj_get groups (date o) with
                  | Some _ => groups
                  | None => obj_set (date o) (Bucket.mk (date o) 0 0) groups
                  end) in *.
  destruct He as (Hnd & Hd & Hkeep & Hbuckets).
  destruct (hasUdon o) eqn:Hu.
  all: unfold tallied; rewrite obj_update_keys; split; [exact Hnd|]; split.
  all: try (intros o' Ho'; apply in_app_or in Ho'; destruct Ho' as [Ho'|[<-|[]]];
            [apply Hkeep, Hseen, Ho' | exact Hd]).
  all: intros k b' Hin; apply in_obj_update in Hin; [|exact Hnd];
    destruct Hin as (b & Hb & ->);
    destruct (Hbuckets k b Hb) as (Hdate & Hk & Hcu & Hco);
    rewrite !ordersOn_snoc, Hu, map_app, in_app_iff; simpl;
    destruct (String.eqb_spec (date o) k) as [E|E]; simpl;
    repeat split; try lia; try (intuition congruence).
Qed.

Lemma tallied_fold (l seen : list CafeteriaOrder) (groups : JsObject Bucket.t) :
  tallied groups seen -> tallied (fold_left tallyOwn l groups) (seen ++ l).
Proof.
  revert seen groups. induction l as [|o l IH]; intros seen groups Ht; simpl.
  - now rewrite app_nil_r.
  - replace (seen ++ o :: l)%list with ((seen ++ [o]) ++ l)%list
      by (rewrite <- app_assoc; reflexivity).
    apply IH, tallied_step, Ht.
Qed.

Lemma groupsOf_tallied (orders : list CafeteriaOrder) :
  tallied (groupsOf orders) (charted orders).
Proof.
  rewrite groupsOf_charted. exact (tallied_fold (charted orders) tallied_nil).
Qed.

Lemma dates_are_keys (g : JsObject Bucket.t) :
  (forall k b, In (k, b) g -> Bucket.date b = k) ->
  map Bucket.date (map snd g) = map fst g.
Proof.
  induction g as [|[k b] g IH]; simpl; intros H; [reflexivity|].
  rewrite (H k b (or_introl eq_refl)). f_equal.
  apply IH. intros k' b' Hin. apply H. now right.
Qed.

Lemma groupsOf_dates (orders : list CafeteriaOrder) :
  map Bucket.date (map snd (groupsOf orders)) = map fst (groupsOf orders)
  /\ Permutation (map fst (groupsOf orders)) (distinctDates (charted orders)).
Proof.
  destruct (groupsOf_tallied orders) as (Hnd & Hbuckets & Hseen).
  split.
  - apply dates_are_keys. intros k b Hin. now destruct (Hbuckets k b Hin).
  - apply NoDup_Permutation; [exact Hnd | apply NoDup_nodup|].
    intros k. unfold distinctDates. rewrite nodup_In. split.
    + intros Hk. apply in_map_iff in Hk. destruct Hk as ([k' b] & <- & Hin).
      now destruct (Hbuckets k' b Hin) as (_ & H & _).
    + intros Hk. apply in_map_iff in Hk. destruct Hk as (o & <- & Ho).
      now apply Hseen.
Qed.

(** ** Totals *)

Lemma bucketTotal_app (l1 l2 : list Bucket.t) :
  bucketTotal (l1 ++ l2) = bucketTotal l1 + bucketTotal l2.
Proof.
  unfold bucketTotal. induction l1 as [|b l1 IH]; simpl; [reflexivity|].
  rewrite IH. lia.
Qed.

Lemma bucketTotal_perm (l l' : list Bucket.t) :
  Permutation l l' -> bucketTotal l = bucketTotal l'.
Proof.
  unfold bucketTotal. induction 1; simpl; lia.
Qed.

Lemma Object_values_perm (V : Type) (o : JsObject V) :
  Permutation (Object_values o) (map snd o).
Proof.
  unfold Object_values.
  rewrite (Permutation_map snd (Array_sort_perm _ (indexed o))).
  apply indexed_named_perm.
Qed.

Lemma StronglySorted_weaken (A : Type) (R R' : A -> A -> Prop) (l : list A) :
  (forall a b, R a b -> R' a b) -> StronglySorted R l -> StronglySorted R' l.
Proof.
  intros Himp. induction 1 as [|x l _ IH Hall]; constructor; [exact IH|].
  rewrite Forall_forall in *. auto.
Qed.


Lemma sumOver_app (m : Bucket.t -> nat) (l1 l2 : list Bucket.t) :
  sumOver m (l1 ++ l2) = sumOver m l1 + sumOver m l2.
Proof.
  unfold sumOver. induction l1 as [|b l1 IH]; simpl; [reflexivity|].
  rewrite IH. lia.
Qed.

Lemma sumOver_perm (m : Bucket.t -> nat) (l l' : list Bucket.t) :
  Permutation l l' -> sumOver m l = sumOver m l'.
Proof. unfold sumOver. induction 1; simpl; lia. Qed.

Lemma sumOver_update (m : Bucket.t -> nat) (d : nat) (k : string)
    (f : Bucket.t -> Bucket.t) (g : JsObject Bucket.t) :
  (forall b, m (f b) = m b + d) ->
  In k (map fst g) ->
  sumOver m (map snd (obj_update k f g)) = sumOver m (map snd g) + d.
Proof.
  intros Hf. induction g as [|[k0 b0] g IH]; simpl; intros Hin; [contradiction|].
  destruct (String.eqb_spec k k0) as [->|Hne]; simpl.
  - rewrite Hf. lia.
  - rewrite IH; [lia|]. destruct Hin as [E|H]; [congruence | exact H].
Qed.

(** The bucket of the order's date is there once the callback has passed
    its first statement, and the new bucket counts nothing yet. *)
Lemma ensure_bucket (m : Bucket.t -> nat) (g g' : JsObject Bucket.t) (d : string) :
  g' = match obj_get g d with
       | Some _ => g
       | None => obj_set d (Bucket.mk d 0 0) g
       end ->
  m (Bucket.mk d 0 0) = 0 ->
  In d (map fst g') /\ sumOver m (map snd g') = sumOver m (map snd g).
Proof.
  intros -> Hzero. destruct (obj_get g d) as [b0|] eqn:Hget.
  - split; [|reflexivity].
    destruct (in_dec string_dec d (map fst g)) as [H|H]; [exact H|].
    apply obj_get_none in H. congruence.
  - unfold obj_set. rewrite Hget, !map_app, sumOver_app. simpl. split; [|lia].
    apply in_or_app. right. now left.
Qed.

Lemma sumOver_fold (l : list CafeteriaOrder) (g : JsObject Bucket.t) :
  sumOver Bucket.udon (map snd (fold_left tallyOwn l g))
  = sumOver Bucket.udon (map snd g) + List.length (filter hasUdon l)
  /\ sumOver Bucket.others (map snd (fold_left tallyOwn l g))
     = sumOver Bucket.others (map snd g)
       + List.length (filter (fun o => negb (hasUdon o)) l).
Proof.
  revert g. induction l as [|o l IH]; intros g; simpl; [lia|].
  destruct (IH (tallyOwn g o)) as [IHu IHo]. rewrite IHu, IHo. clear IH IHu IHo.
  unfold tallyOwn. cbv zeta.
  set (g' := match obj_get g (date o) with
             | Some _ => g
             | None => obj_set (date o) (Bucket.mk (date o) 0 0) g
             end).
  destruct (@ensure_bucket Bucket.udon g g' (date o) eq_refl eq_refl) as [Hin Hu].
  destruct (@ensure_bucket Bucket.others g g' (date o) eq_refl eq_refl) as [_ Ho].
  destruct (hasUdon o).
  - rewrite (sumOver_update Bucket.udon 1), (sumOver_update Bucket.others 0);
      try exact Hin; try (intros b; simpl; lia).
    rewrite Hu, Ho. simpl. lia.
  - rewrite (sumOver_update Bucket.udon 0), (sumOver_update Bucket.others 1);
      try exact Hin; try (intros b; simpl; lia).
    rewrite Hu, Ho. simpl. lia.
Qed.

Lemma filter_split_length (A : Type) (f : A -> bool) (l : list A) :
  List.length (filter f l) + List.length (filter (fun x => negb (f x)) l)
  = List.length l.
Proof.
  induction l as [|x l IH]; simpl; [reflexivity|].
  destruct (f x); simpl; lia.
Qed.

Lemma groupsOf_sums (os : list CafeteriaOrder) :
  sumOver Bucket.udon (map snd (groupsOf os))
  = List.length (filter hasUdon (charted os))
  /\ sumOver Bucket.others (map snd (groupsOf os))
     = List.length (filter (fun o => negb (hasUdon o)) (charted os)).
Proof.
  rewrite groupsOf_charted. exact (sumOver_fold (charted os) []).
Qed.

Lemma bucketTotal_sum (bs : list Bucket.t) :
  bucketTotal bs = sumOver Bucket.udon bs + sumOver Bucket.others bs.
Proof.
  unfold bucketTotal, sumOver. induction bs as [|b bs IH]; simpl; lia.
Qed.

(** ** The sorted, windowed result *)

Lemma sortedGroups_perm (localeCompare : string -> string -> Z)
    (orders : list CafeteriaOrder) :
  Permutation (sortedGroups localeCompare orders) (map snd (groupsOf orders)).
Proof.
  unfold sortedGroups. rewrite Array_sort_perm. apply Object_values_perm.
Qed.

Lemma sortedGroups_dates (localeCompare : string -> string -> Z)
    (orders : list CafeteriaOrder) :
  Permutation (map Bucket.date (sortedGroups localeCompare orders))
              (distinctDates (charted orders)).
Proof.
  destruct (groupsOf_dates orders) as [Hkeys Hperm].
  rewrite (Permutation_map Bucket.date (sortedGroups_perm localeCompare orders)).
  rewrite Hkeys. exact Hperm.
Qed.

Lemma sortedGroups_length (localeCompare : string -> string -> Z)
    (os : list CafeteriaOrder) :
  List.length (sortedGroups localeCompare os) = List.length (distinctDates (charted os)).
Proof.
  rewrite <- (Permutation_length (sortedGroups_dates localeCompare os)).
  now rewrite length_map.
Qed.

Lemma sortedGroups_buckets (localeCompare : string -> string -> Z)
    (orders : list CafeteriaOrder) (b : Bucket.t) :
  In b (sortedGroups localeCompare orders) ->
  inherited (Bucket.date b) = false
  /\ In (Bucket.date b) (map date orders)
  /\ Bucket.udon b = List.length (ordersOn (Bucket.date b) true orders)
  /\ Bucket.others b = List.length (ordersOn (Bucket.date b) false orders).
Proof.
  intros Hin.
  apply (Permutation_in _ (sortedGroups_perm localeCompare orders)) in Hin.
  apply in_map_iff in Hin. destruct Hin as ([k b'] & Hb & Hin). simpl in Hb. subst b'.
  destruct (groupsOf_tallied orders) as (_ & Hbuckets & _).
  destruct (Hbuckets k b Hin) as (-> & H1 & H2 & H3).
  apply in_map_iff in H1. destruct H1 as (o & Hod & Ho).
  apply charted_dates in Ho. destruct Ho as [Ho Hinh]. rewrite Hod in Hinh.
  rewrite !ordersOn_charted in * by exact Hinh.
  repeat split; try assumption.
  apply in_map_iff. now exists o.
Qed.

Lemma sortedGroups_total (localeCompare : string -> string -> Z)
    (orders : list CafeteriaOrder) :
  bucketTotal (sortedGroups localeCompare orders) = List.length (charted orders).
Proof.
  rewrite (bucketTotal_perm (sortedGroups_perm localeCompare orders)).
  rewrite bucketTotal_sum. destruct (groupsOf_sums orders) as [-> ->].
  apply filter_split_length.
Qed.

Lemma chartData_suffix (localeCompare : string -> string -> Z)
    (os : list CafeteriaOrder) :
  exists dropped,
    sortedGroups localeCompare os = (dropped ++ chartData localeCompare os)%list
    /\ List.length dropped = List.length (distinctDates (charted os)) - 14.
Proof.
  exists (firstn (List.length (sortedGroups localeCompare os) - 14)
                 (sortedGroups localeCompare os)).
  split; [unfold chartData; apply slice_last_cut|].
  rewrite length_firstn, sortedGroups_length. lia.
Qed.

Lemma chartData_whole (localeCompare : string -> string -> Z)
    (os : list CafeteriaOrder) :
  List.length (distinctDates (charted os)) <= 14 ->
  chartData localeCompare os = sortedGroups localeCompare os.
Proof.
  intros Hfew. unfold chartData. apply slice_last_all.
  now rewrite sortedGroups_length.
Qed.

Section Chart.
Variable localeCompare : string -> string -> Z.

(** What the language asks of a comparator for [sort] to be defined. *)
Hypothesis localeCompare_total :
  forall a b, (localeCompare a b <= 0)%Z \/ (localeCompare b a <= 0)%Z.
Hypothesis localeCompare_trans :
  forall a b c, (localeCompare a b <= 0)%Z -> (localeCompare b c <= 0)%Z ->
                (localeCompare a c <= 0)%Z.

Lemma sortedGroups_sorted (orders : list CafeteriaOrder) :
  StronglySorted
    (fun a b => (localeCompare (Bucket.date a) (Bucket.date b) <= 0)%Z)
    (sortedGroups localeCompare orders).
Proof.
  unfold sortedGroups.
  apply StronglySorted_weaken
    with (R := fun a b => byDate localeCompare a b = true).
  - intros a b H. unfold byDate in H. now apply Z.leb_le.
  - apply Array_sort_sorted.
    + intros a b H. unfold byDate in *. apply Z.leb_gt in H. apply Z.leb_le.
      destruct (localeCompare_total (Bucket.date a) (Bucket.date b)); lia.
    + intros a b c Hab Hbc. unfold byDate in *.
      apply Z.leb_le in Hab, Hbc. apply Z.leb_le.
      eapply localeCompare_trans; eassumption.
Qed.

(** X20: what [chartData] holds, for every order list.  It takes in the
    orders whose date names no member of [Object.prototype] and only
    those: it has one bucket per distinct date of these orders, each with
    the number of udon orders and of other orders of that date; it lists
    the buckets in ascending order of date for [localeCompare] and keeps
    the last 14, the buckets left out being the first of the sorted list;
    when these orders have at most 14 distinct dates the counts of all
    buckets add up to their number, which is the number of all orders when
    no date names a member of [Object.prototype]. *)
Theorem chartData_series_of_charted_orders :
  forall orders : list CafeteriaOrder,
    (forall b, In b (sortedGroups localeCompare orders) ->
       inherited (Bucket.date b) = false
       /\ In (Bucket.date b) (map date orders)
       /\ Bucket.udon b = List.length (ordersOn (Bucket.date b) true orders)
       /\ Bucket.others b = List.length (ordersOn (Bucket.date b) false orders))
    /\ Permutation (map Bucket.date (sortedGroups localeCompare orders))
                   (distinctDates (charted orders))
    /\ StronglySorted
         (fun a b => (localeCompare (Bucket.date a) (Bucket.date b) <= 0)%Z)
         (chartData localeCompare orders)
    /\ List.length (chartData localeCompare orders)
       = Nat.min 14 (List.length (distinctDates (charted orders)))
    /\ (exists dropped,
          sortedGroups localeCompare orders
          = (dropped ++ chartData localeCompare orders)%list
          /\ List.length dropped = List.length (distinctDates (charted orders)) - 14
          /\ forall a b, In a dropped -> In b (chartData localeCompare orders) ->
               (localeCompare (Bucket.date a) (Bucket.date b) <= 0)%Z)
    /\ (List.length (distinctDates (charted orders)) <= 14 ->
        bucketTotal (chartData localeCompare orders) = List.length (charted orders))
    /\ ((forall o, In o orders -> inherited (date o) = false) ->
        charted orders = orders).
Proof.
  intros os.
  pose proof (sortedGroups_sorted os) as Hsorted.
  destruct (chartData_suffix localeCompare os) as (dropped & Hcut & Hdropped).
  rewrite Hcut in Hsorted. apply StronglySorted_app in Hsorted.
  destruct Hsorted as [Hkept Hcross].
  split; [intros b; apply sortedGroups_buckets|].
  split; [apply sortedGroups_dates|].
  split; [exact Hkept|].
  split; [unfold chartData; now rewrite slice_last_length, sortedGroups_length|].
  split; [exists dropped; auto|].
  split; [|apply charted_all].
  intros Hfew. rewrite (chartData_whole localeCompare os Hfew).
  apply sortedGroups_total.
Qed.
End Chart.

Lemma chartData_series_of_charted_orders_witness :
  map Bucket.date (chartData codeUnitCompare chartSample)
    = ["2024-03-15"; "2024-03-18"; "2024-03-20"]
  /\ StronglySorted
       (fun a b => (codeUnitCompare (Bucket.date a) (Bucket.date b) <= 0)%Z)
       (chartData codeUnitCompare chartSample)
  /\ bucketTotal (chartData codeUnitCompare chartSample) = 4.
Proof.
  destruct (@chartData_series_of_charted_orders codeUnitCompare
              codeUnitCompare_total codeUnitCompare_trans chartSample)
    as (_ & _ & Hsorted & _ & _ & Htotal & Hall).
  split; [reflexivity|]. split; [exact Hsorted|].
  rewrite Htotal by (vm_compute; lia).
  rewrite Hall; [reflexivity|].
  intros o Ho. simpl in Ho.
  destruct Ho as [<-|[<-|[<-|[<-|[]]]]]; reflexivity.
Defined.

(** C6: [chartData] loses the orders whose date is the name of a member of
    [Object.prototype].  Of an order of 2024-03-20 and an order dated
    "constructor" the chart holds the first only: one bucket for two
    distinct dates, and counts that add up to 1 where [totalOrders] is 2. *)
Theorem chartData_loses_inherited_dates :
  forall localeCompare : string -> string -> Z,
    chartData localeCompare inheritedSample = [Bucket.mk "2024-03-20" 0 1]
    /\ distinctDates inheritedSample = ["2024-03-20"; "constructor"]
    /\ bucketTotal (chartData localeCompare inheritedSample) = 1
    /\ totalOrders (stats noon inheritedSample) = 2.
Proof. intros localeCompare. repeat split. Qed.

(** The second copy of the component cuts no window: fifteen dates give
    fifteen buckets. *)
Example variant_chartData_unbounded :
  List.length
    (AppVariant.chartData codeUnitCompare
       (map (fun d => udonOrder d d)
            ["01"; "02"; "03"; "04"; "05"; "06"; "07"; "08"; "09"; "10";
             "11"; "12"; "13"; "14"; "15"])) = 15
  /\ List.length
       (chartData codeUnitCompare
          (map (fun d => udonOrder d d)
               ["01"; "02"; "03"; "04"; "05"; "06"; "07"; "08"; "09"; "10";
                "11"; "12"; "13"; "14"; "15"])) = 14.
Proof. split; vm_compute; reflexivity. Qed.

(** It loses the same orders as the first. *)
Example variant_chartData_loses_inherited_dates :
  AppVariant.chartData codeUnitCompare inheritedSample
  = [AppVariant.Bucket.mk "2024-03-20" 1 1].
Proof. reflexivity. Qed.

(** ** Chart series and statistics *)

(** X10: the bars of the chart agree with the cards of the statistics.
    The udon counts of the buckets never add up to more than [udonCount],
    nor the other counts to more than the orders without udon; when the
    orders have at most 14 distinct dates, none of which names a member of
    [Object.prototype], the udon counts add up to [udonCount] exactly and
    the other counts to [totalOrders - udonCount]. *)
Theorem chartData_matches_stats :
  forall (localeCompare : string -> string -> Z) (loadTime : Date)
         (os : list CafeteriaOrder),
    sumOver Bucket.udon (chartData localeCompare os) <= udonCount (stats loadTime os)
    /\ sumOver Bucket.others (chartData localeCompare os) + udonCount (stats loadTime os)
       <= totalOrders (stats loadTime os)
    /\ (List.length (distinctDates os) <= 14 ->
        (forall o, In o os -> inherited (date o) = false) ->
        sumOver Bucket.udon (chartData localeCompare os) = udonCount (stats loadTime os)
        /\ sumOver Bucket.others (chartData localeCompare os)
           = totalOrders (stats loadTime os) - udonCount (stats loadTime os)).
Proof.
  intros cmp loadTime os.
  pose proof (sumOver_perm Bucket.udon (sortedGroups_perm cmp os)) as Hu.
  pose proof (sumOver_perm Bucket.others (sortedGroups_perm cmp os)) as Ho.
  destruct (groupsOf_sums os) as [Hgu Hgo]. rewrite Hgu in Hu. rewrite Hgo in Ho.
  pose proof (filter_charted_bound hasUdon os) as Hbu.
  pose proof (filter_charted_bound (fun o => negb (hasUdon o)) os) as Hbo.
  pose proof (filter_split_length hasUdon os) as Hsplit.
  unfold stats. simpl.
  destruct (chartData_suffix cmp os) as (dropped & Hcut & _).
  rewrite Hcut, !sumOver_app in *.
  split; [lia|]. split; [lia|].
  intros Hfew Hplain.
  pose proof (charted_all os Hplain) as Hall. rewrite Hall in *.
  assert (Hwhole : chartData cmp os = sortedGroups cmp os)
    by (apply chartData_whole; now rewrite Hall).
  rewrite Hwhole in Hcut at 1.
  assert (Hnil : dropped = []).
  { apply (f_equal (@List.length _)) in Hcut. rewrite length_app in Hcut.
    destruct dropped; [reflexivity | simpl in Hcut; lia]. }
  subst dropped. simpl in *. lia.
Qed.

Lemma chartData_matches_stats_witness :
  sumOver Bucket.udon (chartData codeUnitCompare chartSample) = 2
  /\ sumOver Bucket.others (chartData codeUnitCompare chartSample) = 2.
Proof.
  destruct (chartData_matches_stats codeUnitCompare noon chartSample)
    as (_ & _ & H).
  destruct H as [Hu Ho].
  - vm_compute. lia.
  - intros o Ho. simpl in Ho.
    destruct Ho as [<-|[<-|[<-|[<-|[]]]]]; reflexivity.
  - rewrite Hu, Ho. split; reflexivity.
Defined.

Lemma distinctDates_nil_iff (os : list CafeteriaOrder) :
  distinctDates os = [] <-> os = [].
Proof.
  split; [|intros ->; reflexivity].
  destruct os as [|o os]; [reflexivity|]. intros H.
  assert (Hin : In (date o) (distinctDates (o :: os)))
    by (unfold distinctDates; apply nodup_In; now left).
  rewrite H in Hin. contradiction.
Qed.

(** X11: the chart is empty exactly when every order, if there is any,
    is dated with the name of a member of [Object.prototype]: in
    particular when there are no orders, and never when some order has
    another date.  It has no empty bar: every bucket of the chart carries
    the date of some order and counts at least one order. *)
Theorem chartData_has_no_empty_bucket :
  forall (localeCompare : string -> string -> Z) (os : list CafeteriaOrder),
    (chartData localeCompare os = []
     <-> forall o, In o os -> inherited (date o) = true)
    /\ chartData localeCompare [] = []
    /\ (forall b, In b (chartData localeCompare os) ->
                  In (Bucket.date b) (map date os)
                  /\ 1 <= Bucket.udon b + Bucket.others b).
Proof.
  intros cmp os. split; [|split; [reflexivity|]].
  - rewrite <- charted_nil_iff, <- distinctDates_nil_iff. split; intros H.
    + apply (f_equal (@List.length _)) in H.
      unfold chartData in H. rewrite slice_last_length, sortedGroups_length in H.
      destruct (distinctDates (charted os)) as [|d ds]; [reflexivity|].
      simpl in H. discriminate.
    + apply length_zero_iff_nil. unfold chartData.
      rewrite slice_last_length, sortedGroups_length, H. reflexivity.
  - intros b Hb. destruct (chartData_suffix cmp os) as (dropped & Hcut & _).
    assert (Hin : In b (sortedGroups cmp os))
      by (rewrite Hcut; apply in_or_app; now right).
    destruct (sortedGroups_buckets cmp os b Hin) as (_ & Hdate & Hu & Ho).
    split; [exact Hdate|].
    apply in_map_iff in Hdate. destruct Hdate as (o & Hod & Hoin).
    rewrite Hu, Ho. unfold ordersOn.
    assert (Hwhere : In o (filter (fun o0 => String.eqb (date o0) (Bucket.date b)
                                            && Bool.eqb (hasUdon o0) (hasUdon o)) os)).
    { apply filter_In. split; [exact Hoin|].
      rewrite Hod, String.eqb_refl. now destruct (hasUdon o). }
    destruct (hasUdon o); apply in_split in Hwhere;
      destruct Hwhere as (l1 & l2 & ->); rewrite length_app; simpl; lia.
Qed.

Lemma chartData_has_no_empty_bucket_witness :
  chartData codeUnitCompare [riceOrder "2" "constructor"] = []
  /\ Forall (fun b => In (Bucket.date b) (map date chartSample)
                      /\ 1 <= Bucket.udon b + Bucket.others b)
            (chartData codeUnitCompare chartSample).
Proof.
  split.
  - apply (proj1 (chartData_has_no_empty_bucket codeUnitCompare
                    [riceOrder "2" "constructor"])).
    intros o [<-|[]]. reflexivity.
  - apply Forall_forall.
    exact (proj2 (proj2 (chartData_has_no_empty_bucket codeUnitCompare chartSample))).
Defined.

(** ** Independence of the order of the store *)

Lemma sorted_perm_unique (A : Type) (R : A -> A -> Prop) (l l' : list A) :
  StronglySorted R l -> StronglySorted R l' -> Permutation l l' ->
  (forall a b, In a l -> In b l -> R a b -> R b a -> a = b) ->
  l = l'.
Proof.
  intros Hs. revert l'. induction Hs as [|x t Hst IH Hx]; intros l' Hs' Hperm Hanti.
  - apply Permutation_nil in Hperm. now subst.
  - destruct l' as [|y t'];
      [apply Permutation_sym, Permutation_nil in Hperm; discriminate|].
    inversion Hs' as [|? ? Hst' Hy]; subst.
    rewrite Forall_forall in Hx, Hy.
    assert (Hxy : x = y).
    { assert (Hxin : In x (y :: t')) by (apply (Permutation_in _ Hperm); now left).
      assert (Hyin : In y (x :: t))
        by (apply (Permutation_in _ (Permutation_sym Hperm)); now left).
      destruct Hxin as [->|Hxin]; [reflexivity|].
      destruct Hyin as [->|Hyin]; [reflexivity|].
      apply Hanti; [now left | now right | now apply Hx | now apply Hy]. }
    subst y. f_equal. apply IH.
    + exact Hst'.
    + exact (Permutation_cons_inv Hperm).
    + intros a b Ha Hb. apply Hanti; now right.
Qed.

Lemma NoDup_map_same (A B : Type) (f : A -> B) (l : list A) (a b : A) :
  NoDup (map f l) -> In a l -> In b l -> f a = f b -> a = b.
Proof.
  induction l as [|x l IH]; simpl; intros Hnd Ha Hb Hf; [contradiction|].
  inversion Hnd as [|? ? Hnotin Hnd']; subst.
  destruct Ha as [->|Ha], Hb as [->|Hb].
  - reflexivity.
  - exfalso. apply Hnotin. rewrite Hf. now apply in_map.
  - exfalso. apply Hnotin. rewrite <- Hf. now apply in_map.
  - now apply IH.
Qed.

Lemma groupsOf_explicit (os : list CafeteriaOrder) :
  map snd (groupsOf os) = map (bucketOf (charted os)) (map fst (groupsOf os)).
Proof.
  destruct (groupsOf_tallied os) as (_ & Hbuckets & _).
  induction (groupsOf os) as [|[k b] g IH]; simpl; [reflexivity|].
  f_equal.
  - destruct (Hbuckets k b (or_introl eq_refl)) as (Hd & _ & Hu & Ho).
    destruct b as [d n m]. simpl in *. unfold bucketOf. now subst.
  - apply IH. intros k' b' Hin. apply Hbuckets. now right.
Qed.

Lemma filter_perm (A : Type) (f : A -> bool) (l l' : list A) :
  Permutation l l' -> Permutation (filter f l) (filter f l').
Proof.
  induction 1 as [|x l l' _ IH|x y l|l l' l'' _ IH1 _ IH2]; simpl.
  - constructor.
  - destruct (f x); [now constructor | exact IH].
  - destruct (f x), (f y); try reflexivity. apply perm_swap.
  - now rewrite IH1.
Qed.

Lemma distinctDates_perm (os os' : list CafeteriaOrder) :
  Permutation os os' -> Permutation (distinctDates os) (distinctDates os').
Proof.
  intros Hperm. unfold distinctDates.
  apply NoDup_Permutation; try apply NoDup_nodup.
  intros d. rewrite !nodup_In.
  split; apply Permutation_in; [|apply Permutation_sym]; now apply Permutation_map.
Qed.

Lemma bucketOf_perm (os os' : list CafeteriaOrder) (k : string) :
  Permutation os os' -> bucketOf os k = bucketOf os' k.
Proof.
  intros Hperm. unfold bucketOf, ordersOn.
  now rewrite !(filter_length_perm _ Hperm).
Qed.

Lemma sortedGroups_of_perm (localeCompare : string -> string -> Z)
    (os os' : list CafeteriaOrder) :
  Permutation os os' ->
  Permutation (sortedGroups localeCompare os) (sortedGroups localeCompare os').
Proof.
  intros Hperm.
  assert (Hch : Permutation (charted os) (charted os'))
    by (unfold charted; now apply filter_perm).
  rewrite (sortedGroups_perm localeCompare os), (sortedGroups_perm localeCompare os').
  rewrite !groupsOf_explicit.
  rewrite (map_ext _ _ (fun k => bucketOf_perm k Hch)).
  apply Permutation_map.
  rewrite (proj2 (groupsOf_dates os)), (proj2 (groupsOf_dates os')).
  now apply distinctDates_perm.
Qed.

Section ChartOrder.
Variable localeCompare : string -> string -> Z.

Hypothesis localeCompare_total :
  forall a b, (localeCompare a b <= 0)%Z \/ (localeCompare b a <= 0)%Z.
Hypothesis localeCompare_trans :
  forall a b c, (localeCompare a b <= 0)%Z -> (localeCompare b c <= 0)%Z ->
                (localeCompare a c <= 0)%Z.

(** X12: what reordering the store can change in the chart.  For a
    consistent [localeCompare], two stores holding the same orders give
    the same buckets before the window is cut, and so the same buckets in
    the chart when the charted orders have at most 14 distinct dates: only
    their order can differ.  The chart is the same, bucket for bucket,
    whenever [localeCompare] ranks no two different dates of the store as
    equal. *)
Theorem chartData_order_independent :
  forall os os' : list CafeteriaOrder,
    Permutation os os' ->
    Permutation (sortedGroups localeCompare os) (sortedGroups localeCompare os')
    /\ (List.length (distinctDates (charted os)) <= 14 ->
        Permutation (chartData localeCompare os) (chartData localeCompare os'))
    /\ ((forall a b, In a (map date os) -> In b (map date os) ->
                     (localeCompare a b <= 0)%Z -> (localeCompare b a <= 0)%Z ->
                     a = b) ->
        chartData localeCompare os = chartData localeCompare os').
Proof.
  intros os os' Hperm.
  pose proof (sortedGroups_of_perm localeCompare Hperm) as Hgroups.
  split; [exact Hgroups|]. split.
  - intros Hfew.
    assert (Hfew' : List.length (distinctDates (charted os')) <= 14).
    { rewrite <- !(sortedGroups_length localeCompare) in *.
      now rewrite <- (Permutation_length Hgroups). }
    now rewrite !chartData_whole.
  - intros Hanti. unfold chartData. f_equal.
    apply sorted_perm_unique
      with (R := fun a b => (localeCompare (Bucket.date a) (Bucket.date b) <= 0)%Z).
    + now apply sortedGroups_sorted.
    + now apply sortedGroups_sorted.
    + exact Hgroups.
    + intros a b Ha Hb Hab Hba.
      apply (@NoDup_map_same _ _ Bucket.date (sortedGroups localeCompare os)); auto.
      * apply (Permutation_NoDup
                 (Permutation_sym (sortedGroups_dates localeCompare os))).
        apply NoDup_nodup.
      * apply Hanti; auto.
        -- now destruct (sortedGroups_buckets localeCompare os a Ha) as (_ & H & _).
        -- now destruct (sortedGroups_buckets localeCompare os b Hb) as (_ & H & _).
Qed.
End ChartOrder.

Lemma codeUnitCompare_antisym (a b : string) :
  (codeUnitCompare a b <= 0)%Z -> (codeUnitCompare b a <= 0)%Z -> a = b.
Proof.
  rewrite !codeUnitCompare_le. rewrite (String.compare_antisym a b).
  destruct (String.compare b a) eqn:E; simpl; try congruence.
  intros _ _. symmetry. now apply String.compare_eq_iff.
Qed.

Lemma chartData_order_independent_witness :
  chartData codeUnitCompare (rev chartSample) = chartData codeUnitCompare chartSample.
Proof.
  destruct (@chartData_order_independent codeUnitCompare
              codeUnitCompare_total codeUnitCompare_trans
              (rev chartSample) chartSample) as (_ & _ & H).
  - apply Permutation_sym, Permutation_rev.
  - apply H. intros a b _ _. apply codeUnitCompare_antisym.
Defined.

(** With a comparator that ranks different dates as equal the order of the
    store shows in the chart. *)
Example chartData_order_shows_under_ties :
  chartData allEqual storeSample
    = [Bucket.mk "2026-11-02" 0 1; Bucket.mk "2026-10-30" 1 0]
  /\ chartData allEqual (rev storeSample)
     = [Bucket.mk "2026-10-30" 1 0; Bucket.mk "2026-11-02" 0 1].
Proof. split; reflexivity. Qed.

(** ** The two copies of the component *)

Lemma obj_update_twice (V : Type) (k : string) (h1 h2 : V -> V) (o : JsObject V) :
  obj_update k h2 (obj_update k h1 o) = obj_update k (fun v => h2 (h1 v)) o.
Proof.
  induction o as [|[k0 v0] o IH]; simpl; [reflexivity|].
  destruct (String.eqb k k0) eqn:E; simpl; rewrite E; [reflexivity | now rewrite IH].
Qed.

Section ObjectMap.
Variables V W : Type.
Variable f : V -> W.

Lemma obj_get_map (o : JsObject V) (k : string) :
  obj_get (obj_map f o) k = option_map f (obj_get o k).
Proof.
  induction o as [|[k0 v0] o IH]; simpl; [reflexivity|].
  destruct (String.eqb k k0); [reflexivity | exact IH].
Qed.

Lemma obj_update_map (k : string) (h : V -> V) (h' : W -> W) (o : JsObject V) :
  (forall v, h' (f v) = f (h v)) ->
  obj_update k h' (obj_map f o) = obj_map f (obj_update k h o).
Proof.
  intros Hh. induction o as [|[k0 v0] o IH]; simpl; [reflexivity|].
  destruct (String.eqb k k0); simpl; [now rewrite Hh | now rewrite IH].
Qed.

Lemma obj_set_new_map (k : string) (v : V) (o : JsObject V) :
  obj_get o k = None ->
  obj_set k (f v) (obj_map f o) = obj_map f (obj_set k v o).
Proof.
  intros Hnone. unfold obj_set. rewrite obj_get_map, Hnone. simpl.
  unfold obj_map. now rewrite map_app.
Qed.

Lemma indexed_map (o : JsObject V) :
  indexed (obj_map f o) = map (fun nv => (fst nv, f (snd nv))) (indexed o).
Proof.
  unfold indexed. induction o as [|[k0 v0] o IH]; simpl; [reflexivity|].
  rewrite IH. destruct (arrayIndex k0); reflexivity.
Qed.

Lemma named_map (o : JsObject V) : named (obj_map f o) = obj_map f (named o).
Proof.
  unfold named. induction o as [|[k0 v0] o IH]; simpl; [reflexivity|].
  rewrite IH. destruct (arrayIndex k0); reflexivity.
Qed.
End ObjectMap.

Lemma Array_sort_map (A B : Type) (h : A -> B) (before : A -> A -> bool)
    (before' : B -> B -> bool) (l : list A) :
  (forall a b, before' (h a) (h b) = before a b) ->
  Array_sort before' (map h l) = map h (Array_sort before l).
Proof.
  intros Hb. induction l as [|x l IH]; simpl; [reflexivity|].
  rewrite IH. generalize (Array_sort before l). intros s.
  induction s as [|y s IHs]; simpl; [reflexivity|].
  rewrite Hb. destruct (before x y); simpl; [reflexivity | now rewrite IHs].
Qed.

Lemma Object_values_map (V W : Type) (f : V -> W) (o : JsObject V) :
  Object_values (obj_map f o) = map f (Object_values o).
Proof.
  unfold Object_values. rewrite indexed_map, named_map.
  rewrite (Array_sort_map (fun nv : N * V => (fst nv, f (snd nv)))
             (fun a b => (fst a <=? fst b)%N) (fun a b => (fst a <=? fst b)%N))
    by reflexivity.
  unfold obj_map. rewrite map_app, !map_map. reflexivity.
Qed.

Lemma variant_tally_simulates (g : JsObject Bucket.t) (o : CafeteriaOrder) :
  variantTallyOwn (obj_map toVariantBucket g) o
  = obj_map toVariantBucket (tallyOwn g o).
Proof.
  unfold variantTallyOwn, tallyOwn. cbv zeta.
  rewrite obj_get_map.
  assert (Hens : match option_map toVariantBucket (obj_get g (date o)) with
                 | Some _ => obj_map toVariantBucket g
                 | None => obj_set (date o) (AppVariant.Bucket.mk (date o) 0 0)
                             (obj_map toVariantBucket g)
                 end
                 = obj_map toVariantBucket
                     match obj_get g (date o) with
                     | Some _ => g
                     | None => obj_set (date o) (Bucket.mk (date o) 0 0) g
                     end).
  { destruct (obj_get g (date o)) eqn:Hget; simpl; [reflexivity|].
    now rewrite <- obj_set_new_map. }
  rewrite Hens. clear Hens.
  destruct (hasUdon o).
  - rewrite obj_update_twice. apply obj_update_map.
    intros [d n m]. unfold toVariantBucket. simpl. f_equal. lia.
  - apply obj_update_map.
    intros [d n m]. unfold toVariantBucket. simpl. f_equal. lia.
Qed.

Lemma variant_groups_simulate (os : list CafeteriaOrder) (g : JsObject Bucket.t) :
  fold_left variantTallyOwn os (obj_map toVariantBucket g)
  = obj_map toVariantBucket (fold_left tallyOwn os g).
Proof.
  revert g. induction os as [|o os IH]; intros g; simpl; [reflexivity|].
  rewrite variant_tally_simulates. apply IH.
Qed.

Lemma variant_chartData_simulates (localeCompare : string -> string -> Z)
    (os : list CafeteriaOrder) :
  AppVariant.chartData localeCompare os
  = map toVariantBucket (sortedGroups localeCompare os).
Proof.
  unfold AppVariant.chartData, sortedGroups.
  rewrite variant_groups_charted, groupsOf_charted.
  change (@nil (string * AppVariant.Bucket.t)) with (obj_map toVariantBucket []).
  rewrite variant_groups_simulate, Object_values_map.
  apply Array_sort_map. reflexivity.
Qed.

Lemma ordersOn_both (k : string) (os : list CafeteriaOrder) :
  List.length (ordersOn k true os) + List.length (ordersOn k false os)
  = List.length (filter (fun o => String.eqb (date o) k) os).
Proof.
  unfold ordersOn. induction os as [|o os IH]; simpl; [reflexivity|].
  destruct (String.eqb (date o) k), (hasUdon o); simpl; lia.
Qed.

(** X13: the chart of the second copy of the component is the chart of the
    first before its window is cut, with [count] holding what the first
    splits into [udon] and [others]: the same dates in the same order, the
    same udon counts, and [count = udon + others].  The chart of the first
    copy is its last 14 buckets, converted; the buckets before them are as
    many as the charted orders have distinct dates beyond 14. *)
Theorem variant_chartData_is_unwindowed_chart :
  forall (localeCompare : string -> string -> Z) (os : list CafeteriaOrder),
    AppVariant.chartData localeCompare os
    = map toVariantBucket (sortedGroups localeCompare os)
    /\ exists dropped : list Bucket.t,
         AppVariant.chartData localeCompare os
         = (map toVariantBucket dropped
            ++ map toVariantBucket (chartData localeCompare os))%list
         /\ List.length dropped = List.length (distinctDates (charted os)) - 14.
Proof.
  intros cmp os. split; [apply variant_chartData_simulates|].
  destruct (chartData_suffix cmp os) as (dropped & Hcut & Hlen).
  exists dropped. split; [|exact Hlen].
  now rewrite variant_chartData_simulates, <- map_app, <- Hcut.
Qed.

Lemma variantCountTotal_map (bs : list Bucket.t) :
  variantCountTotal (map toVariantBucket bs) = bucketTotal bs.
Proof.
  unfold variantCountTotal, bucketTotal.
  induction bs as [|b bs IH]; simpl; [reflexivity | now rewrite IH].
Qed.

Section VariantChart.
Variable localeCompare : string -> string -> Z.

Hypothesis localeCompare_total :
  forall a b, (localeCompare a b <= 0)%Z \/ (localeCompare b a <= 0)%Z.
Hypothesis localeCompare_trans :
  forall a b c, (localeCompare a b <= 0)%Z -> (localeCompare b c <= 0)%Z ->
                (localeCompare a c <= 0)%Z.

(** X14: the chart of the second copy of the component takes in the orders
    whose date names no member of [Object.prototype].  It has one bucket
    per distinct date of these orders, however many there are, in
    ascending order of date for [localeCompare].  In each bucket [count]
    is the number of all orders of the date and [udon] the number of those
    with udon, so [udon <= count], and the [count]s add up to the number of
    the orders taken in. *)
Theorem variant_chartData_counts :
  forall os : list CafeteriaOrder,
    Permutation (map AppVariant.Bucket.date (AppVariant.chartData localeCompare os))
                (distinctDates (charted os))
    /\ StronglySorted
         (fun a b => (localeCompare (AppVariant.Bucket.date a)
                                    (AppVariant.Bucket.date b) <= 0)%Z)
         (AppVariant.chartData localeCompare os)
    /\ Forall (fun b =>
                 AppVariant.Bucket.count b
                 = List.length (filter (fun o => String.eqb (date o)
                                                   (AppVariant.Bucket.date b)) os)
                 /\ AppVariant.Bucket.udon b
                    = List.length (ordersOn (AppVariant.Bucket.date b) true os)
                 /\ AppVariant.Bucket.udon b <= AppVariant.Bucket.count b)
              (AppVariant.chartData localeCompare os)
    /\ variantCountTotal (AppVariant.chartData localeCompare os)
       = List.length (charted os)
    /\ ((forall o, In o os -> inherited (date o) = false) -> charted os = os).
Proof.
  intros os. rewrite variant_chartData_simulates.
  split; [|split; [|split; [|split]]].
  - rewrite map_map. simpl.
    change (map (fun x => Bucket.date x) (sortedGroups localeCompare os))
      with (map Bucket.date (sortedGroups localeCompare os)).
    apply sortedGroups_dates.
  - pose proof (@sortedGroups_sorted localeCompare localeCompare_total
                  localeCompare_trans os) as Hs.
    induction Hs as [|b bs _ IH Hall]; simpl; constructor; [exact IH|].
    rewrite Forall_forall in *. intros b' Hb'.
    apply in_map_iff in Hb'. destruct Hb' as (b0 & <- & Hb0). simpl. now apply Hall.
  - apply Forall_forall. intros b' Hb'.
    apply in_map_iff in Hb'. destruct Hb' as (b & <- & Hb). simpl.
    destruct (sortedGroups_buckets localeCompare os b Hb) as (_ & _ & Hu & Ho).
    rewrite <- ordersOn_both, <- Hu, <- Ho. repeat split; lia.
  - rewrite variantCountTotal_map. apply sortedGroups_total.
  - apply charted_all.
Qed.
End VariantChart.

Lemma variant_chartData_counts_witness :
  map AppVariant.Bucket.count (AppVariant.chartData codeUnitCompare chartSample)
    = [1; 1; 2]
  /\ variantCountTotal (AppVariant.chartData codeUnitCompare chartSample) = 4.
Proof.
  destruct (@variant_chartData_counts codeUnitCompare
              codeUnitCompare_total codeUnitCompare_trans chartSample)
    as (_ & _ & _ & Htotal & Hall).
  split; [reflexivity|]. rewrite Htotal, Hall; [reflexivity|].
  intros o Ho. simpl in Ho.
  destruct Ho as [<-|[<-|[<-|[<-|[]]]]]; reflexivity.
Defined.

(** ** The feed's waiting notice *)



(** ** Replies of another shape *)

Lemma some_item_isUdon_error (l : list JSON) (e : JsError) :
  some_item_isUdon l = Raised e -> e = TypeError.
Proof.
  induction l as [|item l IH]; simpl; [discriminate|].
  destruct item as [| | | | |ps]; simpl;
    try exact IH; try (intros H; now injection H as <-).
  destruct (property "isUdon" ps) as [v|]; [|exact IH].
  destruct (truthy v); [discriminate | exact IH].
Qed.

Lemma some_item_isUdon_throws_iff (l : list JSON) :
  some_item_isUdon l = Raised TypeError
  <-> exists pre rest, l = (pre ++ JNull :: rest)%list
                       /\ some_item_isUdon pre = Returned false.
Proof.
  induction l as [|item l IH].
  - simpl. split; [discriminate|].
    intros (pre & rest & H & _). destruct pre; discriminate.
  - assert (Hskip : forall flag : option JSON,
               member item "isUdon" = Returned flag ->
               match flag with Some v => truthy v | None => false end = false ->
               (some_item_isUdon (item :: l) = Raised TypeError
                <-> exists pre rest, (item :: l) = (pre ++ JNull :: rest)%list
                                     /\ some_item_isUdon pre = Returned false)).
    { intros flag Hm Hfalsy.
      assert (Hstep : forall tail, some_item_isUdon (item :: tail) = some_item_isUdon tail).
      { intros tail. simpl. rewrite Hm. simpl.
        destruct flag as [v|]; [now rewrite Hfalsy | reflexivity]. }
      rewrite Hstep, IH. split.
      - intros (pre & rest & -> & Hpre). exists (item :: pre), rest.
        split; [reflexivity | now rewrite Hstep].
      - intros (pre & rest & Hl & Hpre). destruct pre as [|p pre].
        + simpl in Hl. injection Hl as -> _. discriminate.
        + simpl in Hl. injection Hl as <- ->. exists pre, rest.
          split; [reflexivity | now rewrite <- Hstep]. }
    assert (Hstop : forall v : JSON,
               member item "isUdon" = Returned (Some v) -> truthy v = true ->
               (some_item_isUdon (item :: l) = Raised TypeError
                <-> exists pre rest, (item :: l) = (pre ++ JNull :: rest)%list
                                     /\ some_item_isUdon pre = Returned false)).
    { intros v Hm Htrue. split.
      - simpl. rewrite Hm. simpl. rewrite Htrue. discriminate.
      - intros (pre & rest & Hl & Hpre). destruct pre as [|p pre].
        + simpl in Hl. injection Hl as -> _. discriminate.
        + simpl in Hl. injection Hl as <- _. simpl in Hpre.
          rewrite Hm in Hpre. simpl in Hpre. rewrite Htrue in Hpre. discriminate. }
    destruct item as [| | | | |ps].
    + split; [|reflexivity]. intros _. exists [], l. split; reflexivity.
    + apply (Hskip None); reflexivity.
    + apply (Hskip None); reflexivity.
    + apply (Hskip None); reflexivity.
    + apply (Hskip None); reflexivity.
    + destruct (property "isUdon" ps) as [v|] eqn:Hp.
      * destruct (truthy v) eqn:Ht.
        -- apply (Hstop v); [simpl; now rewrite Hp | exact Ht].
        -- apply (Hskip (Some v)); [simpl; now rewrite Hp | exact Ht].
      * apply (Hskip None); [simpl; now rewrite Hp | reflexivity].
Qed.

(** X8: replies of another shape than the declared one reach the builder
    and make it throw.  [parseEmailContent] returns whatever [JSON.parse]
    made of the reply text, unchanged; read without types, the first
    statement of [processEmail], [parsed.items.some(item => item.isUdon)],
    then throws, and only ever a TypeError, exactly when [items] is not an
    array (the reply is [null], has no [items], or holds something else
    there) or is an array with a [null] element that no element with a
    truthy [isUdon] comes before. *)
Theorem untyped_builder_throws_exactly_when :
  (forall (now : Date) (text : ResponseText) (v : JSON),
      JSON_parse (text_or_braces text) = Returned v ->
      parseEmailContent now (Fulfilled text) = Returned v)
  /\ (forall (v : JSON) (e : JsError), parsed_items_some v = Raised e -> e = TypeError)
  /\ (forall v : JSON,
         parsed_items_some v = Raised TypeError
         <-> (forall l, member v "items" <> Returned (Some (JArray l)))
             \/ (exists pre rest,
                    member v "items" = Returned (Some (JArray (pre ++ JNull :: rest)))
                    /\ some_item_isUdon pre = Returned false)).
Proof.
  split; [|split].
  - intros now text v Hparse. unfold parseEmailContent. simpl.
    rewrite Hparse. reflexivity.
  - intros v e. unfold parsed_items_some.
    destruct (member v "items") as [[[| | | |l|]|]|e0] eqn:Hm; simpl;
      try (intros H; now injection H as <-).
    + apply some_item_isUdon_error.
    + destruct v; simpl in Hm; try discriminate. injection Hm as <-.
      intros H. now injection H as <-.
  - intros v. unfold parsed_items_some.
    destruct (member v "items") as [[[| | | |l|]|]|e0] eqn:Hm; simpl.
    5: { rewrite some_item_isUdon_throws_iff. split.
         - intros (pre & rest & -> & Hpre). right. now exists pre, rest.
         - intros [H|(pre & rest & H & Hpre)]; [now contradiction (H l)|].
           injection H as ->. now exists pre, rest. }
    all: split; [intros _; left; intros l; discriminate|].
    all: intros _; try reflexivity.
    destruct v; simpl in Hm; try discriminate. now injection Hm as <-.
Qed.

Lemma untyped_builder_throws_exactly_when_witness :
  parseEmailContent noon (Fulfilled NoText) = Returned (JObject [])
  /\ parsed_items_some (JObject []) = Raised TypeError
  /\ parsed_items_some (JObject [("items", JArray [JNull])]) = Raised TypeError.
Proof.
  destruct untyped_builder_throws_exactly_when as (Hpass & _ & Hthrows).
  split; [apply Hpass; reflexivity|]. split.
  - apply Hthrows. left. intros l. discriminate.
  - apply Hthrows. right. exists [], []. split; reflexivity.
Defined.
